(** * Discord_Apex: the rank-mirroring bot of [apex_player/main.py]

    A shallow embedding of the configuration loader
    ([parse_player_configs], [main]) and of one bot session's poll cycle
    ([ApexPlayerBot.update_stats_task], [update_all_nicknames],
    [update_avatar]), followed by the properties of the specification that
    concern them.

    Scope of the embedding.
    - Text is ASCII: a Python [str] is a Rocq [string]; [upper] maps the
      letters a-z and leaves every other character alone.
    - A JSON number without fraction or exponent is an integer; with one it
      is a float, kept as the number it denotes. NaN, which no JSON number
      denotes, is not represented. The text of a float, like that of a list
      and of a dict, is a parameter ([Repr]).
    - The chat platform, the HTTP session and the imaging library are
      collaborators: a [world] gives the outcome of each of their calls, and
      a cycle records the calls it makes in a trace.
    - Only exceptions derived from Python's [Exception] are modelled; task
      cancellation and interpreter exit are not. *)

From Stdlib Require Import ZArith List String Ascii Bool Lia DecimalString.
Import ListNotations.

#[local] Set Warnings "-register-all".
#[local] Open Scope string_scope.
#[local] Open Scope Z_scope.

(* ===================================================================== *)
(** * Python values and the builtins the source relies on                *)
(* ===================================================================== *)

Module Py.

(** A float by its value: plus or minus [mantissa * 2 ^ exponent], or an
    infinity (the value of a literal too large, such as 1e999). The binary64
    values are among these; nothing below depends on their bounds. *)
Inductive pyfloat : Type :=
| Finite (negative : bool) (mantissa : N) (exponent : Z)
| Infinite (negative : bool).

(** What [json.loads] produces, and [None]. A dict is the list of its items
    in insertion order; a lookup takes the first item with the key. *)
Inductive pyval : Type :=
| PyNone
| PyBool (b : bool)
| PyInt (n : Z)
| PyFloat (x : pyfloat)
| PyStr (s : string)
| PyList (xs : list pyval)
| PyDict (items : list (string * pyval)).

Inductive exn_class : Type :=
| ValueError
| TypeError
| AttributeError
| Forbidden          (* discord.Forbidden *)
| OtherException.    (* any other subclass of Exception *)

Record exn : Type := Exn { exn_cls : exn_class; exn_msg : string }.

Inductive result (A : Type) : Type :=
| Ok (a : A)
| Raise (e : exn).
Arguments Ok {A} a.
Arguments Raise {A} e.

Definition is_forbidden (e : exn) : bool :=
  match exn_cls e with Forbidden => true | _ => false end.

Definition type_name (v : pyval) : string :=
  match v with
  | PyNone => "NoneType"
  | PyBool _ => "bool"
  | PyInt _ => "int"
  | PyFloat _ => "float"
  | PyStr _ => "str"
  | PyList _ => "list"
  | PyDict _ => "dict"
  end.

(** Decimal digits of an integer, with its sign: [str(n)]. *)
Definition str_of_Z (n : Z) : string := NilZero.string_of_int (Z.to_int n).

(** ** dict.get *)

Fixpoint assoc {A : Type} (key : string) (items : list (string * A)) : option A :=
  match items with
  | [] => None
  | (k, v) :: rest => if String.eqb key k then Some v else assoc key rest
  end.

(** [d.get(key, default)]; only a dict has the method. *)
Definition get (d : pyval) (key : string) (default : pyval) : result pyval :=
  match d with
  | PyDict items =>
      Ok (match assoc key items with Some v => v | None => default end)
  | _ =>
      Raise (Exn AttributeError
               ("'" ++ type_name d ++ "' object has no attribute 'get'"))
  end.

(** ** Truth value: [if v] *)

Definition truthy (v : pyval) : bool :=
  match v with
  | PyNone => false
  | PyBool b => b
  | PyInt n => negb (n =? 0)
  | PyFloat (Finite _ mantissa _) => negb (mantissa =? 0)%N
  | PyFloat (Infinite _) => true
  | PyStr s => negb (String.eqb s "")
  | PyList xs => match xs with [] => false | _ => true end
  | PyDict items => match items with [] => false | _ => true end
  end.

(** ** Equality: [a == b]

    A dict compares by keys and values whatever the order of its items, so
    both sides are first brought to a canonical form: items sorted by key,
    one item per key (the first one, as [assoc] reads it). Numbers compare
    by value across [bool], [int] and [float]: [True == 1], [1 == 1.0],
    [0.0 == -0.0]. *)

(** The value of a number: [v * 2 ^ e], or an infinity. *)
Inductive number : Type :=
| Dyadic (v : Z) (e : Z)
| PlusInfinity
| MinusInfinity.

Definition number_of (v : pyval) : option number :=
  match v with
  | PyBool b => Some (Dyadic (Z.b2z b) 0)
  | PyInt n => Some (Dyadic n 0)
  | PyFloat (Finite negative mantissa exponent) =>
      Some (Dyadic (if negative then - Z.of_N mantissa else Z.of_N mantissa)
                   exponent)
  | PyFloat (Infinite negative) =>
      Some (if negative then MinusInfinity else PlusInfinity)
  | _ => None
  end.

Definition number_eqb (x y : number) : bool :=
  match x, y with
  | Dyadic v e, Dyadic v' e' =>
      let low := Z.min e e' in
      v * 2 ^ (e - low) =? v' * 2 ^ (e' - low)
  | PlusInfinity, PlusInfinity => true
  | MinusInfinity, MinusInfinity => true
  | _, _ => false
  end.

Fixpoint put (k : string) (v : pyval) (m : list (string * pyval))
  : list (string * pyval) :=
  match m with
  | [] => [(k, v)]
  | (k', v') :: m' =>
      if String.eqb k k' then (k, v) :: m'
      else if String.ltb k k' then (k, v) :: m
      else (k', v') :: put k v m'
  end.

Fixpoint canon (v : pyval) : pyval :=
  match v with
  | PyList xs => PyList (map canon xs)
  | PyDict items =>
      PyDict ((fix go (l : list (string * pyval)) : list (string * pyval) :=
                 match l with
                 | [] => []
                 | (k, x) :: rest => put k (canon x) (go rest)
                 end) items)
  | _ => v
  end.

Fixpoint same (a b : pyval) {struct a} : bool :=
  match a, b with
  | PyNone, PyNone => true
  | PyBool x, PyBool y => Bool.eqb x y
  | PyBool x, PyInt y => Z.b2z x =? y
  | PyInt x, PyBool y => x =? Z.b2z y
  | PyInt x, PyInt y => x =? y
  | PyStr x, PyStr y => String.eqb x y
  | PyList xs, PyList ys =>
      (fix go (l : list pyval) (r : list pyval) {struct l} : bool :=
         match l, r with
         | [], [] => true
         | x :: l', y :: r' => same x y && go l' r'
         | _, _ => false
         end) xs ys
  | PyDict m, PyDict n =>
      (fix go (l : list (string * pyval)) (r : list (string * pyval))
           {struct l} : bool :=
         match l, r with
         | [], [] => true
         | (k, x) :: l', (k', y) :: r' =>
             String.eqb k k' && same x y && go l' r'
         | _, _ => false
         end) m n
  | _, _ =>
      match number_of a, number_of b with
      | Some x, Some y => number_eqb x y
      | _, _ => false
      end
  end.

Definition eqb (a b : pyval) : bool := same (canon a) (canon b).

(** [a != b] *)
Definition neb (a b : pyval) : bool := negb (eqb a b).

(** ** Text: [str(v)], and the format specification [","] *)

(** Python's [repr] of a float, of a list and of a dict is not modelled: it
    is a parameter of the development, consulted for those three types
    only. *)
Class Repr : Type := repr : pyval -> string.

Definition str `{Repr} (v : pyval) : string :=
  match v with
  | PyNone => "None"
  | PyBool true => "True"
  | PyBool false => "False"
  | PyInt n => str_of_Z n
  | PyStr s => s
  | PyFloat _ | PyList _ | PyDict _ => repr v
  end.

(** A comma after every third digit, on the digits least significant
    first. *)
Fixpoint group3 (rev_digits : list ascii) : list ascii :=
  match rev_digits with
  | a :: b :: c :: ((_ :: _) as more) => a :: b :: c :: ","%char :: group3 more
  | _ => rev_digits
  end.

Definition thousands (n : Z) : string :=
  let digits := list_ascii_of_string (str_of_Z (Z.abs n)) in
  let grouped := string_of_list_ascii (rev (group3 (rev digits))) in
  if n <? 0 then "-" ++ grouped else grouped.

(** The digits at the head of a text, and what follows them. *)
Fixpoint leading_digits (cs : list ascii) : list ascii * list ascii :=
  match cs with
  | c :: cs' =>
      let n := nat_of_ascii c in
      if ((48 <=? n) && (n <=? 57))%nat
      then let (digits, rest) := leading_digits cs' in (c :: digits, rest)
      else ([], cs)
  | [] => ([], [])
  end.

(** The text of a float with the digits before its point or exponent
    grouped: "15000.5" gives "15,000.5"; "1e+16" and "inf" stay. *)
Definition group_leading (s : string) : string :=
  let grouped cs :=
    let (digits, rest) := leading_digits cs in
    (rev (group3 (rev digits)) ++ rest)%list in
  match list_ascii_of_string s with
  | "-"%char :: cs => String "-" (string_of_list_ascii (grouped cs))
  | cs => string_of_list_ascii (grouped cs)
  end.

(** [format(v, ",")], the conversion of [{rank_score:,}]. A number takes the
    specification: an [int] (and so a [bool]) is grouped by thousands, a
    [float] is its [repr] with the leading digits grouped. [str] rejects it
    with a [ValueError], the other types with a [TypeError]. *)
Definition format_comma `{Repr} (v : pyval) : result string :=
  match v with
  | PyInt n => Ok (thousands n)
  | PyBool b => Ok (thousands (Z.b2z b))
  | PyFloat _ => Ok (group_leading (repr v))
  | PyStr _ => Raise (Exn ValueError "Cannot specify ',' with 's'.")
  | _ =>
      Raise (Exn TypeError
               ("unsupported format string passed to " ++ type_name v
                ++ ".__format__"))
  end.

(** ** str.upper, str.replace, str.startswith *)

Definition upper_char (c : ascii) : ascii :=
  let n := nat_of_ascii c in
  if ((97 <=? n) && (n <=? 122))%nat then ascii_of_nat (n - 32) else c.

Fixpoint upper (s : string) : string :=
  match s with
  | EmptyString => EmptyString
  | String c s' => String (upper_char c) (upper s')
  end.

Definition startswith (s pre : string) : bool := String.prefix pre s.

Fixpoint interleave (new s : string) : string :=
  match s with
  | EmptyString => new
  | String c s' => new ++ String c (interleave new s')
  end.

(** Left to right, occurrences that do not overlap; [skip] counts the
    characters of a matched occurrence still to be dropped. *)
Fixpoint replace_from (old new : string) (skip : nat) (s : string) : string :=
  match s with
  | EmptyString => EmptyString
  | String c s' =>
      match skip with
      | S k => replace_from old new k s'
      | O =>
          if String.prefix old s
          then new ++ replace_from old new (String.length old - 1) s'
          else String c (replace_from old new 0 s')
      end
  end.

(** [s.replace(old, new)] *)
Definition replace (s old new : string) : string :=
  match old with
  | EmptyString => interleave new s
  | _ => replace_from old new 0 s
  end.

(** ** int(s)

    Base 10: optional surrounding whitespace, an optional sign, then digits,
    where single underscores may separate digits. Whitespace is the space
    and the characters 9 to 13. More than 4300 digits are refused (the
    interpreter's limit on integer string conversion). *)

Definition is_space (c : ascii) : bool :=
  let n := nat_of_ascii c in
  (((9 <=? n) && (n <=? 13)) || (n =? 32))%nat.

Fixpoint lstrip (cs : list ascii) : list ascii :=
  match cs with
  | c :: cs' => if is_space c then lstrip cs' else cs
  | [] => []
  end.

Definition strip (cs : list ascii) : list ascii :=
  rev (lstrip (rev (lstrip cs))).

Definition digit_value (c : ascii) : option Z :=
  let n := nat_of_ascii c in
  if ((48 <=? n) && (n <=? 57))%nat then Some (Z.of_nat (n - 48)) else None.

(** [need_digit] holds at the start and right after an underscore. *)
Fixpoint digits (acc : Z) (count : nat) (need_digit : bool) (cs : list ascii)
  : option (Z * nat) :=
  match cs with
  | [] => if need_digit then None else Some (acc, count)
  | c :: cs' =>
      match digit_value c with
      | Some d => digits (10 * acc + d) (S count) false cs'
      | None =>
          if Ascii.eqb c "_" && negb need_digit
          then digits acc count true cs'
          else None
      end
  end.

Definition max_str_digits : nat := 4300.

(** The value and the number of digits, when the text spells an integer. *)
Definition literal (s : string) : option (Z * nat) :=
  match strip (list_ascii_of_string s) with
  | "-"%char :: cs =>
      option_map (fun found => (- fst found, snd found)) (digits 0 0 true cs)
  | "+"%char :: cs => digits 0 0 true cs
  | cs => digits 0 0 true cs
  end.

Definition parse_int (s : string) : option Z :=
  match literal s with
  | Some (n, count) => if (max_str_digits <? count)%nat then None else Some n
  | None => None
  end.

(** The [ValueError] of [int(s)]. The message of an invalid literal quotes
    the text the way [repr] does for text with no quote, backslash or
    control character in it. *)
Definition int_error (s : string) : exn :=
  match literal s with
  | Some (_, count) =>
      Exn ValueError
        ("Exceeds the limit (4300 digits) for integer string conversion: value has "
         ++ str_of_Z (Z.of_nat count)
         ++ " digits; use sys.set_int_max_str_digits() to increase the limit")
  | None =>
      Exn ValueError ("invalid literal for int() with base 10: '" ++ s ++ "'")
  end.

(** [int(s)] *)
Definition int (s : string) : result Z :=
  match parse_int s with
  | Some n => Ok n
  | None => Raise (int_error s)
  end.

End Py.

(* ===================================================================== *)
(** * Logging                                                            *)
(* ===================================================================== *)

Inductive level : Type := INFO | WARNING | ERROR | FATAL.

Record log_record : Type := LogRecord { lvl : level; message : string }.

Definition is_level (l : level) (r : log_record) : bool :=
  match l, lvl r with
  | INFO, INFO | WARNING, WARNING | ERROR, ERROR | FATAL, FATAL => true
  | _, _ => false
  end.

(* ===================================================================== *)
(** * The configuration loader: [parse_player_configs] and [main]        *)
(* ===================================================================== *)

Module Loader.
Import Py.

(** [os.environ] as the list of its items. *)
Definition environ : Type := list (string * string).

Record PlayerConfig : Type := {
  name : string;
  discord_token : string;
  player_uid : string;
  startup_delay : Z
}.

(** The condition of the dict comprehension that selects [player_tokens]. *)
Definition is_token_key (k : string) : bool :=
  startswith k "DISCORD_BOT_TOKEN_"
  && negb (String.eqb k "DISCORD_BOT_TOKEN_MAP").

Definition player_tokens (env_vars : environ) : environ :=
  filter (fun kv => is_token_key (fst kv)) env_vars.

Definition player_name_of (token_key : string) : string :=
  upper (replace token_key "DISCORD_BOT_TOKEN_" "").

(** The body of [for token_key, token_value in player_tokens.items()], with
    the list [configs] built so far. A [continue] goes on with the rest of
    the items; the [ValueError] of [int] leaves the loop and the function. *)
Fixpoint load_loop (env_vars : environ) (tokens : environ)
    (configs : list PlayerConfig)
  : list log_record * result (list PlayerConfig) :=
  match tokens with
  | [] => ([], Ok configs)
  | (token_key, token_value) :: rest =>
      let player_name := player_name_of token_key in
      let uid_key := "PLAYER_UID_" ++ player_name in
      match assoc uid_key env_vars with
      | None | Some EmptyString =>
          let (logs, r) := load_loop env_vars rest configs in
          (LogRecord WARNING
             ("Missing " ++ uid_key ++ " for player " ++ player_name
              ++ ", skipping...") :: logs, r)
      | Some player_uid =>
          let delay_key := "STARTUP_DELAY_" ++ player_name in
          let delay_text :=
            match assoc delay_key env_vars with Some v => v | None => "0" end in
          match int delay_text with
          | Raise e => ([], Raise e)
          | Ok startup_delay =>
              let config := {| name := player_name;
                               discord_token := token_value;
                               player_uid := player_uid;
                               startup_delay := startup_delay |} in
              let (logs, r) := load_loop env_vars rest (configs ++ [config])%list in
              (LogRecord INFO
                 ("Loaded config for player: " ++ player_name ++ " (UID: "
                  ++ player_uid ++ ", delay: " ++ str_of_Z startup_delay
                  ++ "s)") :: logs, r)
          end
      end
  end.

Definition parse_player_configs (env_vars : environ)
  : list log_record * result (list PlayerConfig) :=
  match load_loop env_vars (player_tokens env_vars) [] with
  | (logs, Ok []) =>
      ((logs ++ [LogRecord FATAL
                   "No player configurations found! Ensure DISCORD_BOT_TOKEN_* and PLAYER_UID_* are set in .env"])%list,
       Raise (Exn ValueError "No player configurations found"))
  | (logs, r) => (logs, r)
  end.

(** What [main] does, in order. The sessions of the bots it starts run
    concurrently and are not followed here: [RunBot] marks the start of
    one. *)
Inductive startup_event : Type :=
| Logged (r : log_record)
| OpenSession             (* aiohttp.ClientSession(...) *)
| RunBot (config : PlayerConfig)
| CloseSession.

Definition main (env_vars : environ) : list startup_event * result unit :=
  match parse_player_configs env_vars with
  | (logs, Raise e) => (map Logged logs, Raise e)
  | (logs, Ok player_configs) =>
      ((map Logged logs ++ [OpenSession] ++ map RunBot player_configs
          ++ [CloseSession])%list,
       Ok tt)
  end.

Definition is_session_event (e : startup_event) : bool :=
  match e with
  | Logged _ => false
  | _ => true
  end.

End Loader.

(* ===================================================================== *)
(** * One bot session: [ApexPlayerBot]                                    *)
(* ===================================================================== *)

Module Bot.
Import Py.

(** ** The collaborators *)

(** The reply to [shared_session.get(url)]: [body] is the outcome of
    [text()] and of [read()], which raise when the body cannot be read;
    [json] is the outcome of [json()], which raises also on a body that is
    not JSON. *)
Record response : Type := {
  status : Z;
  body : result string;
  json : result pyval
}.

(** [guild.me]: the bot's own member, with the outcome of
    [edit(nick=...)]; [None] is no exception. *)
Record member : Type := {
  nick : pyval;
  edit : pyval -> option exn
}.

Record guild : Type := {
  guild_name : string;
  me : option member
}.

(** A decoded picture of the imaging library. *)
Record image : Type := {
  mode : string;
  pixels : string
}.

Record world : Type := {
  session_get : pyval -> result response;
  change_presence : string -> option exn;
  guilds : list guild;
  image_open : string -> result image;             (* Image.open(io.BytesIO(raw_data)) *)
  image_convert : image -> string -> result image; (* image.convert(mode) *)
  image_save : image -> string -> result string;   (* image.save(buffer, format=...) *)
  user_edit : string -> option exn                 (* self.user.edit(avatar=...) *)
}.

(** The calls a cycle makes on its collaborators, and what it logs. *)
Inductive event : Type :=
| GetStats (url : string)     (* shared_session.get, from update_stats_task *)
| GetImage (url : pyval)      (* shared_session.get, from update_avatar *)
| ChangePresence (text : string)
| EditNick (guild : string) (new_nick : pyval)
| EditAvatar (png : string)
| Log (r : log_record).

(** ** The session object *)

(** The attributes [__init__] sets once. *)
Record ApexPlayerBot : Type := {
  config : Loader.PlayerConfig;
  api_url : string
}.

Definition init (APEX_API_KEY : string) (config : Loader.PlayerConfig)
  : ApexPlayerBot :=
  {| config := config;
     api_url := "https://api.mozambiquehe.re/bridge?auth=" ++ APEX_API_KEY
                ++ "&player=" ++ Loader.player_uid config ++ "&platform=PC" |}.

(** "Internal Memory": the two attributes a cycle assigns. *)
Record PollState : Type := {
  last_known_name : pyval;
  last_known_score : option string
}.

Definition empty_state : PollState :=
  {| last_known_name := PyNone; last_known_score := None |}.

(** ** Computations: state, trace, exceptions *)

Definition M (A : Type) : Type :=
  PollState -> list event * PollState * result A.

Definition ret {A : Type} (a : A) : M A := fun s => ([], s, Ok a).

Definition bind {A B : Type} (m : M A) (k : A -> M B) : M B :=
  fun s =>
    match m s with
    | (t, s', Ok a) =>
        match k a s' with
        | (t', s'', r) => ((t ++ t')%list, s'', r)
        end
    | (t, s', Raise e) => (t, s', Raise e)
    end.

Declare Scope py_scope.
Delimit Scope py_scope with py.
Notation "x <- m ;; k" := (bind m (fun x => k))
  (at level 61, m at next level, right associativity) : py_scope.
Notation "m ;; k" := (bind m (fun _ => k))
  (at level 61, right associativity) : py_scope.
#[local] Open Scope py_scope.

(** [try: m  except Exception as e: handler e] *)
Definition try_except {A : Type} (m : M A) (handler : exn -> M A) : M A :=
  fun s =>
    match m s with
    | (t, s', Raise e) =>
        match handler e s' with
        | (t', s'', r) => ((t ++ t')%list, s'', r)
        end
    | done => done
    end.

Definition lift {A : Type} (r : result A) : M A := fun s => ([], s, r).

Definition emit (e : event) : M unit := fun s => ([e], s, Ok tt).

(** A call on a collaborator: recorded, then its outcome. *)
Definition call (e : event) (outcome : option exn) : M unit :=
  fun s =>
    ([e], s, match outcome with None => Ok tt | Some x => Raise x end).

Definition log (l : level) (msg : string) : M unit :=
  emit (Log (LogRecord l msg)).

Definition get_state : M PollState := fun s => ([], s, Ok s).

Definition set_last_known_score (text : string) : M unit :=
  fun s => ([], {| last_known_name := last_known_name s;
                   last_known_score := Some text |}, Ok tt).

Definition set_last_known_name (new_name : pyval) : M unit :=
  fun s => ([], {| last_known_name := new_name;
                   last_known_score := last_known_score s |}, Ok tt).

Fixpoint for_each {X : Type} (xs : list X) (body : X -> M unit) : M unit :=
  match xs with
  | [] => ret tt
  | x :: rest => body x ;; for_each rest body
  end.

Definition get_stats (w : world) (url : string) : M response :=
  fun s => ([GetStats url], s, session_get w (PyStr url)).

Definition get_image (w : world) (url : pyval) : M response :=
  fun s => ([GetImage url], s, session_get w url).

(** ** The methods *)

(** The values step 1 of [update_stats_task] reads from the document. *)
Record StatsSnapshot : Type := {
  player_name : pyval;
  rank_score : pyval;
  rank_name : pyval;
  rank_div : pyval;
  rank_img_url : pyval
}.

Definition and_then {A B : Type} (r : result A) (k : A -> result B) : result B :=
  match r with
  | Ok a => k a
  | Raise e => Raise e
  end.

(** Step 1, "PARSE DATA". *)
Definition parse_data (data : pyval) : result StatsSnapshot :=
  and_then (get data "global" (PyDict [])) (fun global_info =>
  and_then (get global_info "rank" (PyDict [])) (fun rank_info =>
  and_then (get global_info "name" (PyStr "Unknown")) (fun player_name =>
  and_then (get rank_info "rankScore" (PyInt 0)) (fun rank_score =>
  and_then (get rank_info "rankName" (PyStr "Rookie")) (fun rank_name =>
  and_then (get rank_info "rankDiv" (PyInt 0)) (fun rank_div =>
  and_then (get rank_info "rankImg" PyNone) (fun rank_img_url =>
  Ok {| player_name := player_name;
        rank_score := rank_score;
        rank_name := rank_name;
        rank_div := rank_div;
        rank_img_url := rank_img_url |}))))))).

(** "Pillow Processing": the picture is opened, converted to RGBA unless it
    is in that mode already, and saved as PNG. *)
Definition reencode (w : world) (raw_data : string) : result string :=
  and_then (image_open w raw_data) (fun opened =>
  and_then (if negb (String.eqb (mode opened) "RGBA")
            then image_convert w opened "RGBA"
            else Ok opened) (fun picture =>
  image_save w picture "PNG")).

(** [status_text != self.last_known_score] *)
Definition differs (status_text : string) (last : option string) : bool :=
  match last with
  | Some known => negb (String.eqb status_text known)
  | None => true
  end.

Section Methods.
Context `{Repr}.
Variable self : ApexPlayerBot.

Definition tag : string := "[" ++ Loader.name (config self) ++ "] ".

(** [guild.me.nick]: [None] has no attribute [nick]. *)
Definition me_of (g : guild) : result member :=
  match me g with
  | Some m => Ok m
  | None =>
      Raise (Exn AttributeError "'NoneType' object has no attribute 'nick'")
  end.

Definition update_nickname_in (new_nick : pyval) (g : guild) : M unit :=
  try_except
    (m <- lift (me_of g) ;;
     if neb (nick m) new_nick
     then call (EditNick (guild_name g) new_nick) (edit m new_nick)
     else ret tt)
    (fun e =>
       if is_forbidden e
       then log WARNING (tag ++ "Missing permissions to change nickname in guild: "
                         ++ guild_name g)
       else log ERROR (tag ++ "Failed to change nickname in " ++ guild_name g
                       ++ ": " ++ exn_msg e)).

Definition update_all_nicknames (w : world) (new_nick : pyval) : M unit :=
  log INFO (tag ++ "Updating nickname to '" ++ str new_nick ++ "'...") ;;
  for_each (guilds w) (update_nickname_in new_nick).

Definition update_avatar (w : world) (url : pyval) : M unit :=
  try_except
    (resp <- get_image w url ;;
     if status resp =? 200 then
       raw_data <- lift (body resp) ;;
       png <- lift (reencode w raw_data) ;;
       call (EditAvatar png) (user_edit w png) ;;
       log INFO (tag ++ "Profile Image updated to Ranked Badge.")
     else
       log ERROR (tag ++ "Failed to download image: " ++ str_of_Z (status resp)))
    (fun e => log ERROR (tag ++ "Failed to update avatar: " ++ exn_msg e)).

(** [f"{rank_name} {rank_div} - {rank_score:,} RP"] *)
Definition status_text_of (snap : StatsSnapshot) : result string :=
  and_then (format_comma (rank_score snap)) (fun score =>
  Ok (str (rank_name snap) ++ " " ++ str (rank_div snap) ++ " - " ++ score
      ++ " RP")).

(** Steps 2 to 4, on the values of step 1. *)
Definition update_from (w : world) (snap : StatsSnapshot) : M unit :=
  status_text <- lift (status_text_of snap) ;;
  s <- get_state ;;
  let score_changed := differs status_text (last_known_score s) in
  (if score_changed then
     call (ChangePresence status_text) (change_presence w status_text) ;;
     log INFO (tag ++ "Status Updated: " ++ status_text) ;;
     set_last_known_score status_text
   else ret tt) ;;
  s <- get_state ;;
  (if neb (player_name snap) (last_known_name s) then
     update_all_nicknames w (player_name snap) ;;
     set_last_known_name (player_name snap)
   else ret tt) ;;
  if truthy (rank_img_url snap) && score_changed then
    log INFO (tag ++ "Score changed; updating avatar to current rank badge...") ;;
    update_avatar w (rank_img_url snap)
  else ret tt.

(** The body of the [try] of [update_stats_task]. *)
Definition poll (w : world) : M unit :=
  response <- get_stats w (api_url self) ;;
  if status response =? 200 then
    data <- lift (json response) ;;
    snap <- lift (parse_data data) ;;
    update_from w snap
  else if status response =? 429 then
    log WARNING (tag ++ "Rate Limit Hit (429). Waiting...")
  else
    error_text <- lift (body response) ;;
    log ERROR (tag ++ "API Failed: " ++ str_of_Z (status response) ++ " - "
               ++ error_text).

Definition update_stats_task (w : world) : M unit :=
  try_except (poll w)
    (fun e => log ERROR (tag ++ "Error in main loop: " ++ exn_msg e)).

(** [tasks.loop]: one cycle per tick, each tick with the world it meets. *)
Definition run_loop (ticks : list world) : M unit :=
  for_each ticks update_stats_task.

End Methods.

(** ** Reading a trace *)

Definition presence_calls (t : list event) : list string :=
  flat_map (fun e => match e with ChangePresence x => [x] | _ => [] end) t.

Definition nickname_calls (t : list event) : list (string * pyval) :=
  flat_map (fun e => match e with EditNick g n => [(g, n)] | _ => [] end) t.

Definition avatar_downloads (t : list event) : list pyval :=
  flat_map (fun e => match e with GetImage u => [u] | _ => [] end) t.

Definition avatar_uploads (t : list event) : list string :=
  flat_map (fun e => match e with EditAvatar p => [p] | _ => [] end) t.

Definition logged (t : list event) : list log_record :=
  flat_map (fun e => match e with Log r => [r] | _ => [] end) t.

End Bot.

(* ===================================================================== *)
(** * Vocabulary of the specification                                    *)
(* ===================================================================== *)

Module LoaderSpec.
Import Py Loader.

(** The value of the identifier key that goes with a token key: the key is
    named after the player, and an empty value counts as no value. *)
Definition uid_of (env_vars : environ) (token_key : string) : option string :=
  match assoc ("PLAYER_UID_" ++ player_name_of token_key) env_vars with
  | Some EmptyString => None
  | found => found
  end.

Definition complete (env_vars : environ) (item : string * string) : bool :=
  match uid_of env_vars (fst item) with
  | Some _ => true
  | None => false
  end.

(** The token items with their identifier, and those without. *)
Definition well_formed (env_vars : environ) : environ :=
  filter (complete env_vars) (player_tokens env_vars).

Definition incomplete (env_vars : environ) : environ :=
  filter (fun item => negb (complete env_vars item)) (player_tokens env_vars).

(** The text of the startup delay of a token key, ["0"] when it has none. *)
Definition delay_text (env_vars : environ) (token_key : string) : string :=
  match assoc ("STARTUP_DELAY_" ++ player_name_of token_key) env_vars with
  | Some v => v
  | None => "0"
  end.

Definition delay_parses (env_vars : environ) (item : string * string) : Prop :=
  parse_int (delay_text env_vars (fst item)) <> None.

Definition skip_warnings (logs : list log_record) : list log_record :=
  filter (is_level WARNING) logs.

(** The record of a token item that has its identifier. *)
Definition record_of (env_vars : environ) (item : string * string)
  : PlayerConfig :=
  {| name := player_name_of (fst item);
     discord_token := snd item;
     player_uid := match uid_of env_vars (fst item) with
                   | Some uid => uid
                   | None => ""
                   end;
     startup_delay := match parse_int (delay_text env_vars (fst item)) with
                      | Some seconds => seconds
                      | None => 0
                      end |}.

(** The two records the loop logs. *)
Definition skip_warning (token_key : string) : log_record :=
  LogRecord WARNING
    ("Missing PLAYER_UID_" ++ player_name_of token_key ++ " for player "
     ++ player_name_of token_key ++ ", skipping...").

Definition loaded_info (config : PlayerConfig) : log_record :=
  LogRecord INFO
    ("Loaded config for player: " ++ name config ++ " (UID: "
     ++ player_uid config ++ ", delay: " ++ str_of_Z (startup_delay config)
     ++ "s)").

Definition no_configurations : exn :=
  Exn ValueError "No player configurations found".

Definition fatal_record : log_record :=
  LogRecord FATAL
    "No player configurations found! Ensure DISCORD_BOT_TOKEN_* and PLAYER_UID_* are set in .env".

(** The startup delay a record should carry: the integer its player's key
    spells, 0 without the key. *)
Definition delay_as_configured (env_vars : environ) (config : PlayerConfig)
  : Prop :=
  match assoc ("STARTUP_DELAY_" ++ name config) env_vars with
  | Some text => parse_int text = Some (startup_delay config)
  | None => startup_delay config = 0
  end.

Definition no_delay_key (env_vars : environ) (item : string * string) : Prop :=
  assoc ("STARTUP_DELAY_" ++ player_name_of (fst item)) env_vars = None.

End LoaderSpec.

Module BotSpec.
Import Py Bot.

Definition trace_of {A : Type} (run : list event * PollState * result A)
  : list event := fst (fst run).

Definition state_of {A : Type} (run : list event * PollState * result A)
  : PollState := snd (fst run).

Definition outcome_of {A : Type} (run : list event * PollState * result A)
  : result A := snd run.

(** The stats API answers 200 with a document that step 1 reads as
    [snap]. *)
Definition fetches (self : ApexPlayerBot) (w : world) (snap : StatsSnapshot)
  : Prop :=
  exists resp data,
    session_get w (PyStr (api_url self)) = Ok resp
    /\ status resp = 200
    /\ json resp = Ok data
    /\ parse_data data = Ok snap.

(** The value at a path of keys, when every step is a member of an
    object. *)
Fixpoint at_path (path : list string) (v : pyval) : option pyval :=
  match path with
  | [] => Some v
  | key :: rest =>
      match v with
      | PyDict items =>
          match assoc key items with
          | Some x => at_path rest x
          | None => None
          end
      | _ => None
      end
  end.

Definition or_default (default : pyval) (found : option pyval) : pyval :=
  match found with
  | Some v => v
  | None => default
  end.

Definition is_dict (v : pyval) : bool :=
  match v with
  | PyDict _ => true
  | _ => false
  end.

(** The member at [key] of an object is absent or an object itself. *)
Definition object_if_present (key : string) (v : pyval) : bool :=
  match v with
  | PyDict items =>
      match assoc key items with
      | Some x => is_dict x
      | None => true
      end
  | _ => false
  end.

(** The documents step 1 reads without an exception. *)
Definition readable (data : pyval) : bool :=
  object_if_present "global" data
  && object_if_present "rank"
       (or_default (PyDict []) (at_path ["global"] data)).

(** The server's nickname of the bot is not [new_nick] yet. *)
Definition wants_nick (new_nick : pyval) (g : guild) : bool :=
  match me g with
  | Some m => neb (nick m) new_nick
  | None => false
  end.

(** What one avatar update uploads: the re-encoded picture, when the
    download answers 200 and the picture re-encodes. *)
Definition uploaded (w : world) (url : pyval) : list string :=
  match session_get w url with
  | Ok resp =>
      if status resp =? 200 then
        match and_then (body resp) (reencode w) with
        | Ok png => [png]
        | Raise _ => []
        end
      else []
  | Raise _ => []
  end.

(** What a nickname pass over [servers] does, and what an avatar update
    does: neither depends on the state of the session. *)
Definition pass_events `{Repr} (self : ApexPlayerBot) (new_nick : pyval)
    (servers : list guild) : list event :=
  trace_of (for_each servers (update_nickname_in self new_nick) empty_state).

Definition avatar_events `{Repr} (self : ApexPlayerBot) (w : world)
    (url : pyval) : list event :=
  trace_of (update_avatar self w url empty_state).

(** The record that opens a nickname pass. *)
Definition nickname_log `{Repr} (self : ApexPlayerBot) (new_nick : pyval)
  : event :=
  Log (LogRecord INFO
         (tag self ++ "Updating nickname to '" ++ str new_nick ++ "'...")).

(** The other records of a cycle. *)
Definition status_log (self : ApexPlayerBot) (text : string) : event :=
  Log (LogRecord INFO (tag self ++ "Status Updated: " ++ text)).

Definition avatar_log (self : ApexPlayerBot) : event :=
  Log (LogRecord INFO
         (tag self ++ "Score changed; updating avatar to current rank badge...")).

Definition main_loop_error (self : ApexPlayerBot) (e : exn) : event :=
  Log (LogRecord ERROR (tag self ++ "Error in main loop: " ++ exn_msg e)).

Definition rate_limit_record (self : ApexPlayerBot) : log_record :=
  LogRecord WARNING (tag self ++ "Rate Limit Hit (429). Waiting...").

Definition api_failed_record (self : ApexPlayerBot) (resp : response)
    (error_text : string) : log_record :=
  LogRecord ERROR
    (tag self ++ "API Failed: " ++ str_of_Z (status resp) ++ " - "
     ++ error_text).

(** The record of the handler of the cycle. *)
Definition main_loop_record (self : ApexPlayerBot) (e : exn) : log_record :=
  LogRecord ERROR (tag self ++ "Error in main loop: " ++ exn_msg e).

(** The one record of a cycle whose answer has another status than 200. *)
Definition non_200_record (self : ApexPlayerBot) (resp : response)
  : log_record :=
  if status resp =? 429 then rate_limit_record self
  else match body resp with
       | Ok error_text => api_failed_record self resp error_text
       | Raise e => main_loop_record self e
       end.

(** [part] is found in [text], by search from the left. *)
Fixpoint occurs (part text : string) : bool :=
  String.prefix part text
  || match text with
     | EmptyString => false
     | String _ rest => occurs part rest
     end.

(** [part] occurs in [text]. *)
Definition contains (text part : string) : Prop :=
  exists before after, text = before ++ part ++ after.

Definition missing_permissions_warning (self : ApexPlayerBot) (g : guild)
  : event :=
  Log (LogRecord WARNING
         (tag self ++ "Missing permissions to change nickname in guild: "
          ++ guild_name g)).

(** The state after steps 2 and 3 have recorded what they changed. *)
Definition recorded (s : PollState) (score_changed name_changed : bool)
    (text : string) (new_name : pyval) : PollState :=
  {| last_known_name := if name_changed then new_name else last_known_name s;
     last_known_score := if score_changed then Some text
                         else last_known_score s |}.

(** The trace of steps 2 to 4 when none of them raises. *)
Definition completed_events `{Repr} (self : ApexPlayerBot) (w : world)
    (snap : StatsSnapshot) (text : string) (score_changed name_changed : bool)
  : list event :=
  ((if score_changed then [ChangePresence text; status_log self text] else [])
   ++ (if name_changed
       then nickname_log self (player_name snap)
            :: pass_events self (player_name snap) (guilds w)
       else [])
   ++ (if truthy (rank_img_url snap) && score_changed
       then avatar_log self :: avatar_events self w (rank_img_url snap)
       else []))%list.

Definition returns (outcome : option exn) : bool :=
  match outcome with
  | None => true
  | Some _ => false
  end.

End BotSpec.

(* ===================================================================== *)
(** * Scenarios                                                           *)
(* ===================================================================== *)

Module Scenario.
Import Py Loader Bot.

#[local] Instance plain_repr : Repr := fun _ => "...".

Definition daan : PlayerConfig :=
  {| name := "DAAN"; discord_token := "token"; player_uid := "1007";
     startup_delay := 0 |}.

Definition bot : ApexPlayerBot := init "key" daan.

(** The document of the end-to-end scenario of the specification. *)
Definition shroud : pyval :=
  PyDict [("global",
           PyDict [("name", PyStr "Shroud");
                   ("rank",
                    PyDict [("rankScore", PyInt 15000);
                            ("rankName", PyStr "Master");
                            ("rankDiv", PyInt 1);
                            ("rankImg", PyStr "http://x/badge.png")])])].

Definition shroud_snapshot : StatsSnapshot :=
  {| player_name := PyStr "Shroud";
     rank_score := PyInt 15000;
     rank_name := PyStr "Master";
     rank_div := PyInt 1;
     rank_img_url := PyStr "http://x/badge.png" |}.

Definition member_named (current : pyval) (outcome : option exn) : member :=
  {| nick := current; edit := fun _ => outcome |}.

Definition server (name : string) (current : pyval) (outcome : option exn)
  : guild :=
  {| guild_name := name; me := Some (member_named current outcome) |}.

Definition missing_permissions : exn :=
  Exn Forbidden "403 Forbidden (error code: 50013): Missing Permissions".

Definition connection_closed : exn :=
  Exn OtherException "Shard ID None WebSocket closed with 1000".

(** A session that answers the stats request with [reply] and serves the
    badge as a picture in palette mode; the platform takes the presence
    update with [presence]. *)
Definition session (reply : response) (presence : option exn)
    (servers : list guild) : world :=
  {| session_get := fun url =>
       if eqb url (PyStr (api_url bot)) then Ok reply
       else Ok {| status := 200; body := Ok "GIF89a";
                  json := Raise (Exn OtherException "not JSON") |};
     change_presence := fun _ => presence;
     guilds := servers;
     image_open := fun raw => Ok {| mode := "P"; pixels := raw |};
     image_convert := fun picture m => Ok {| mode := m; pixels := pixels picture |};
     image_save := fun picture _ => Ok ("PNG:" ++ pixels picture);
     user_edit := fun _ => None |}.

Definition ok_reply (data : pyval) : response :=
  {| status := 200; body := Ok "{...}"; json := Ok data |}.

(** Environments. *)
Definition env_delay_soon : environ :=
  [("APEX_API_KEY", "key");
   ("DISCORD_BOT_TOKEN_DAAN", "token-1");
   ("PLAYER_UID_DAAN", "1007");
   ("STARTUP_DELAY_DAAN", "soon")].

Definition env_delay_fraction : environ :=
  [("DISCORD_BOT_TOKEN_DAAN", "token-1");
   ("PLAYER_UID_DAAN", "1007");
   ("STARTUP_DELAY_DAAN", "2.5")].

Definition env_two_of_three : environ :=
  [("APEX_API_KEY", "key");
   ("DISCORD_BOT_TOKEN_DAAN", "token-1");
   ("PLAYER_UID_DAAN", "1007");
   ("DISCORD_BOT_TOKEN_MAP", "a:b");
   ("DISCORD_BOT_TOKEN_NINO", "token-2");
   ("DISCORD_BOT_TOKEN_EVA", "token-3");
   ("PLAYER_UID_EVA", "2203");
   ("STARTUP_DELAY_EVA", "30")].

Definition env_no_identifier : environ :=
  [("APEX_API_KEY", "key");
   ("DISCORD_BOT_TOKEN_NINO", "token-2");
   ("DISCORD_BOT_TOKEN_MAP", "a:b")].

Definition three_servers : list guild :=
  [server "alpha" PyNone None;
   server "beta" (PyStr "Apex Bot") (Some missing_permissions);
   server "gamma" PyNone None].

(** The worlds of the scenarios: every call succeeds but the edit on
    "beta"; the platform is down for the presence update; the only server
    shows the bot as "Shroud" already, as after a restart; the stats API
    answers 429; it answers 500. *)
Definition happy : world := session (ok_reply shroud) None three_servers.

Definition presence_down : world :=
  session (ok_reply shroud) (Some connection_closed) three_servers.

Definition already_named : world :=
  session (ok_reply shroud) None [server "alpha" (PyStr "Shroud") None].

Definition rate_limited : world :=
  session {| status := 429; body := Ok "Too Many Requests";
             json := Raise (Exn OtherException "not JSON") |}
          None three_servers.

Definition server_error : world :=
  session {| status := 500; body := Ok "server error";
             json := Raise (Exn OtherException "not JSON") |}
          None three_servers.

(** The stats API answers 500 and the connection drops while the body is
    read. *)
Definition payload_error : exn :=
  Exn OtherException "Response payload is not completed".

Definition server_error_unread : world :=
  session {| status := 500; body := Raise payload_error;
             json := Raise payload_error |}
          None three_servers.

Definition master_text : string := "Master 1 - 15,000 RP".

End Scenario.

(* ===================================================================== *)
(** * Around the cycle: the start of the task, [run_bot], the script      *)
(* ===================================================================== *)

Module Runner.
Import Py.

(** ** [before_update_stats_task] and the start of the task *)

(** What the task of a session does: it waits for the session to be ready,
    sleeps, and makes the calls of its cycles. *)
Inductive task_event : Type :=
| WaitUntilReady
| Sleep (seconds : Z)
| Before (r : log_record)       (* logged before the loop *)
| InCycle (e : Bot.event).

Definition before_update_stats_task (self : Bot.ApexPlayerBot)
  : list task_event :=
  let startup_delay := Loader.startup_delay (Bot.config self) in
  WaitUntilReady
  :: (if 0 <? startup_delay
      then [Before (LogRecord INFO
                      (Bot.tag self ++ "Waiting " ++ str_of_Z startup_delay
                       ++ " seconds before first API call to avoid rate limits..."));
            Sleep startup_delay]
      else []).

(** [setup_hook] starts the task on a session as [__init__] leaves it: the
    hook before the loop runs once, then one cycle per tick. *)
Definition update_stats_task_start `{Repr} (self : Bot.ApexPlayerBot)
    (ticks : list Bot.world) : list task_event :=
  (before_update_stats_task self
   ++ map InCycle (fst (fst (Bot.run_loop self ticks Bot.empty_state))))%list.

(** ** [run_bot] *)

(** The session as [run_bot] uses it: [start] returns when the session ends
    or raises; [close] may raise too. *)
Record session : Type := {
  start : string -> option exn;
  close : option exn
}.

Inductive run_event : Type :=
| Start (token : string)
| Close
| Crashed (r : log_record).

Definition run_bot (config : Loader.PlayerConfig) (bot : session)
  : list run_event * result unit :=
  let tried :=
    match start bot (Loader.discord_token config) with
    | None => [Start (Loader.discord_token config)]
    | Some e =>
        [Start (Loader.discord_token config);
         Crashed (LogRecord ERROR
                    ("[" ++ Loader.name config ++ "] Bot crashed: "
                     ++ exn_msg e))]
    end in
  ((tried ++ [Close])%list,
   match close bot with
   | None => Ok tt
   | Some e => Raise e
   end).

(** ** The script: the module's own statements and its last block *)

(** The events of the start and the exit status of the process. A missing
    key raises while the module loads, which ends the interpreter with
    status 1. [gathered] is the outcome of [asyncio.gather] over the bots
    that [main] starts: an exception when a [run_bot] raises. The handler of
    [KeyboardInterrupt] is not followed. *)
Definition script (env_vars : Loader.environ) (gathered : result unit)
  : list Loader.startup_event * Z :=
  let fatal e :=
    Loader.Logged (LogRecord ERROR ("Fatal error: " ++ exn_msg e)) in
  match assoc "APEX_API_KEY" env_vars with
  | None | Some EmptyString =>
      ([Loader.Logged (LogRecord FATAL "Missing APEX_API_KEY in .env")], 1)
  | Some _ =>
      match Loader.main env_vars with
      | (events, Raise e) => ((events ++ [fatal e])%list, 1)
      | (events, Ok _) =>
          match gathered with
          | Ok _ => (events, 0)
          | Raise e => ((events ++ [fatal e])%list, 1)
          end
      end
  end.

End Runner.

Module MoreSpec.
Import Py Loader Bot BotSpec.

(** The server answers the pass with a log record: it has no member for the
    bot, or the edit it needs raises. *)
Definition refuses (new_nick : pyval) (g : guild) : bool :=
  match me g with
  | None => true
  | Some m => neb (nick m) new_nick && negb (returns (edit m new_nick))
  end.

Definition stats_requests (t : list event) : list string :=
  flat_map (fun e => match e with GetStats u => [u] | _ => [] end) t.

(** The types that take the format specification [","]: the numbers. *)
Definition is_number (v : pyval) : bool :=
  match v with
  | PyInt _ | PyBool _ | PyFloat _ => true
  | _ => false
  end.

Definition is_comma (c : ascii) : bool := Ascii.eqb c ","%char.

Definition without_commas (s : string) : string :=
  string_of_list_ascii
    (filter (fun c => negb (is_comma c)) (list_ascii_of_string s)).

Definition commas (s : string) : nat :=
  List.length (filter is_comma (list_ascii_of_string s)).

(** Where what a record holds comes from. *)
Definition from_environment (env_vars : environ) (config : PlayerConfig)
  : Prop :=
  exists token_key,
    In (token_key, discord_token config) env_vars
    /\ is_token_key token_key = true
    /\ name config = player_name_of token_key
    /\ assoc ("PLAYER_UID_" ++ name config) env_vars = Some (player_uid config)
    /\ player_uid config <> "".

(** The record the loop logs for a token item. *)
Definition log_of (env_vars : environ) (item : string * string) : log_record :=
  if LoaderSpec.complete env_vars item
  then LoaderSpec.loaded_info (LoaderSpec.record_of env_vars item)
  else LoaderSpec.skip_warning (fst item).

(** The two keys the loop reads for a token key. *)
Definition reads (token_key key : string) : Prop :=
  key = "PLAYER_UID_" ++ player_name_of token_key
  \/ key = "STARTUP_DELAY_" ++ player_name_of token_key.

(** The key of the stats API is set to a value that is not empty. *)
Definition has_api_key (env_vars : environ) : bool :=
  match assoc "APEX_API_KEY" env_vars with
  | Some (String _ _) => true
  | _ => false
  end.

(** The record of the handler of a server, for an exception that is not
    [Forbidden]. *)
Definition nickname_failure `{Repr} (self : ApexPlayerBot) (g : guild) (e : exn)
  : event :=
  Log (LogRecord ERROR
         (tag self ++ "Failed to change nickname in " ++ guild_name g ++ ": "
          ++ exn_msg e)).

Definition no_member : exn :=
  Exn AttributeError "'NoneType' object has no attribute 'nick'".

Definition sleeps (t : list Runner.task_event) : list Z :=
  flat_map (fun e => match e with Runner.Sleep n => [n] | _ => [] end) t.

Definition closes (t : list Runner.run_event) : nat :=
  List.length
    (filter (fun e => match e with Runner.Close => true | _ => false end) t).

End MoreSpec.

Module MoreScenarios.
Import Py Loader Bot Scenario.

Definition timeout_error : exn := Exn OtherException "Timeout on reading data".

Definition rate_limited_edit : exn :=
  Exn OtherException "429 Too Many Requests (error code: 0)".

(** A session whose stats request meets a network fault, and one whose
    answer is not JSON. *)
Definition offline : world :=
  {| session_get := fun _ => Raise timeout_error;
     change_presence := fun _ => None;
     guilds := three_servers;
     image_open := fun raw => Ok {| mode := "P"; pixels := raw |};
     image_convert := fun picture m => Ok {| mode := m; pixels := pixels picture |};
     image_save := fun picture _ => Ok ("PNG:" ++ pixels picture);
     user_edit := fun _ => None |}.

Definition html_reply : world :=
  session {| status := 200; body := Ok "<html>";
             json := Raise (Exn OtherException "Attempt to decode JSON with unexpected mimetype: text/html") |}
          None three_servers.

(** The score 15000.5, and a rendering of floats that knows it. *)
Definition fractional_score : pyval := PyFloat (Finite false 30001 (-1)).

Definition decimal_repr : Repr :=
  fun v =>
    match v with
    | PyFloat (Finite false 30001%N (-1)%Z) => "15000.5"
    | _ => "..."
    end.

Definition fractional_snapshot : StatsSnapshot :=
  {| player_name := PyStr "Shroud";
     rank_score := fractional_score;
     rank_name := PyStr "Master";
     rank_div := PyInt 1;
     rank_img_url := PyNone |}.

Definition fractional : pyval :=
  PyDict [("global",
           PyDict [("name", PyStr "Shroud");
                   ("rank",
                    PyDict [("rankScore", fractional_score);
                            ("rankName", PyStr "Master");
                            ("rankDiv", PyInt 1)])])].

(** The score arrives as text. *)
Definition score_as_text : pyval :=
  PyDict [("global",
           PyDict [("name", PyStr "Shroud");
                   ("rank",
                    PyDict [("rankScore", PyStr "15000");
                            ("rankName", PyStr "Master");
                            ("rankDiv", PyInt 1)])])].

(** Servers: one without a member for the bot, one whose edit fails for
    another reason than permissions. *)
Definition mixed_servers : list guild :=
  [server "alpha" PyNone None;
   {| guild_name := "void"; me := None |};
   server "delta" PyNone (Some rate_limited_edit);
   server "omega" (PyStr "Shroud") None].

Definition mixed : world := session (ok_reply shroud) None mixed_servers.

Definition eva : PlayerConfig :=
  {| name := "EVA"; discord_token := "token-3"; player_uid := "2203";
     startup_delay := 30 |}.

Definition login_failure : exn := Exn OtherException "Improper token has been passed.".

Definition env_negative_delay : environ :=
  [("APEX_API_KEY", "key");
   ("DISCORD_BOT_TOKEN_DAAN", "token-1");
   ("PLAYER_UID_DAAN", "1007");
   ("STARTUP_DELAY_DAAN", "-5")].

End MoreScenarios.

(* ===================================================================== *)
(** * Properties of the Python layer                                     *)
(* ===================================================================== *)

Section PyFacts.
Import Py.
Context `{Repr}.

Lemma pyval_nested_ind (P : pyval -> Prop) :
  P PyNone ->
  (forall b, P (PyBool b)) ->
  (forall n, P (PyInt n)) ->
  (forall x, P (PyFloat x)) ->
  (forall s, P (PyStr s)) ->
  (forall xs, Forall P xs -> P (PyList xs)) ->
  (forall items, Forall (fun kv => P (snd kv)) items -> P (PyDict items)) ->
  forall v, P v.
Proof.
  intros HN HB HI HF HS HL HD.
  fix IH 1.
  intros [ | b | n | x | s | xs | items ].
  - exact HN.
  - apply HB.
  - apply HI.
  - apply HF.
  - apply HS.
  - apply HL. induction xs as [ | x xs IHxs ]; constructor.
    + apply IH.
    + exact IHxs.
  - apply HD. induction items as [ | [k x] items IHitems ]; constructor.
    + apply IH.
    + exact IHitems.
Qed.

Lemma number_eqb_refl (x : number) : number_eqb x x = true.
Proof. destruct x; simpl; [ apply Z.eqb_refl | reflexivity | reflexivity ]. Qed.

Lemma same_refl (v : pyval) : same v v = true.
Proof.
  induction v as [ | b | n | x | s | xs IHxs | items IHitems ]
    using pyval_nested_ind; simpl.
  - reflexivity.
  - destruct b; reflexivity.
  - apply Z.eqb_refl.
  - destruct x as [ negative mantissa exponent | negative ];
      apply number_eqb_refl.
  - apply String.eqb_refl.
  - induction IHxs as [ | x xs Hx _ IH ]; [ reflexivity | ].
    rewrite Hx. exact IH.
  - induction IHitems as [ | [k x] items Hx _ IH ]; [ reflexivity | ].
    simpl in Hx. rewrite String.eqb_refl, Hx. exact IH.
Qed.

Lemma py_eqb_refl (v : pyval) : eqb v v = true.
Proof. unfold eqb. apply same_refl. Qed.

Lemma py_neb_refl (v : pyval) : neb v v = false.
Proof. unfold neb. now rewrite py_eqb_refl. Qed.

(** The builtins on the values the interpreter gives for them. *)

Example thousands_15000 : thousands 15000 = "15,000".
Proof. reflexivity. Qed.

Example thousands_below_1000 : thousands 999 = "999" /\ thousands 0 = "0".
Proof. split; reflexivity. Qed.

Example thousands_negative :
  thousands (-1234567) = "-1,234,567" /\ thousands (-999) = "-999".
Proof. split; reflexivity. Qed.

Example format_comma_bool : format_comma (PyBool true) = Ok "1".
Proof. reflexivity. Qed.

Example group_leading_float :
  group_leading "15000.5" = "15,000.5"
  /\ group_leading "1234567.0" = "1,234,567.0"
  /\ group_leading "-1234.5" = "-1,234.5"
  /\ group_leading "999.0" = "999.0"
  /\ group_leading "1e+16" = "1e+16"
  /\ group_leading "-inf" = "-inf".
Proof. repeat split; reflexivity. Qed.

Example format_comma_float x :
  format_comma (PyFloat x) = Ok (group_leading (repr (PyFloat x))).
Proof. reflexivity. Qed.

Example eqb_numbers :
  eqb (PyInt 1) (PyFloat (Finite false 1 0)) = true
  /\ eqb (PyBool true) (PyFloat (Finite false 1 0)) = true
  /\ eqb (PyFloat (Finite false 0 0)) (PyFloat (Finite true 0 0)) = true
  /\ eqb (PyFloat (Finite false 3 (-1))) (PyFloat (Finite false 6 (-2))) = true
  /\ eqb (PyInt (2 ^ 53 + 1)) (PyFloat (Finite false 1 53)) = false
  /\ eqb (PyFloat (Infinite false)) (PyFloat (Infinite true)) = false
  /\ truthy (PyFloat (Finite true 0 0)) = false.
Proof. repeat split; reflexivity. Qed.

Example format_comma_str :
  format_comma (PyStr "abc")
  = Raise (Exn ValueError "Cannot specify ',' with 's'.").
Proof. reflexivity. Qed.

Example format_comma_none :
  format_comma PyNone
  = Raise (Exn TypeError
             "unsupported format string passed to NoneType.__format__").
Proof. reflexivity. Qed.

Example parse_int_accepts :
  parse_int " 4_2 " = Some 42 /\ parse_int "-5" = Some (-5)
  /\ parse_int "+5" = Some 5 /\ parse_int "007" = Some 7
  /\ parse_int "0" = Some 0.
Proof. repeat split; reflexivity. Qed.

Example parse_int_refuses :
  parse_int "soon" = None /\ parse_int "" = None /\ parse_int "  " = None
  /\ parse_int "1__0" = None /\ parse_int "_1" = None /\ parse_int "1_" = None
  /\ parse_int "+-5" = None /\ parse_int "- 5" = None /\ parse_int "2.5" = None
  /\ parse_int "0x10" = None /\ parse_int "5s" = None.
Proof. repeat split; reflexivity. Qed.

Example parse_int_digit_limit :
  parse_int (string_of_list_ascii (repeat "1"%char 4300)) <> None
  /\ parse_int (string_of_list_ascii (repeat "1"%char 4301)) = None.
Proof. split; [ now vm_compute | now vm_compute ]. Qed.

Example upper_ascii : upper "daan_1" = "DAAN_1".
Proof. reflexivity. Qed.

Example replace_prefix :
  replace "DISCORD_BOT_TOKEN_DAAN" "DISCORD_BOT_TOKEN_" "" = "DAAN".
Proof. reflexivity. Qed.

Example replace_every_occurrence :
  replace "DISCORD_BOT_TOKEN_ADISCORD_BOT_TOKEN_B" "DISCORD_BOT_TOKEN_" "" = "AB"
  /\ replace "aaa" "aa" "b" = "ba"
  /\ replace "abc" "" "-" = "-a-b-c-".
Proof. repeat split; reflexivity. Qed.

Example eqb_dict_ignores_order :
  eqb (PyDict [("a", PyInt 1); ("b", PyBool true)])
      (PyDict [("b", PyInt 1); ("a", PyInt 1)]) = true.
Proof. reflexivity. Qed.

Example eqb_types :
  eqb (PyStr "1") (PyInt 1) = false /\ eqb PyNone PyNone = true
  /\ eqb (PyList [PyBool true]) (PyList [PyInt 1]) = true.
Proof. repeat split; reflexivity. Qed.

Example get_on_non_dict :
  get (PyList []) "global" (PyDict [])
  = Raise (Exn AttributeError "'list' object has no attribute 'get'").
Proof. reflexivity. Qed.

Lemma int_parsed (s : string) (n : Z) : parse_int s = Some n -> int s = Ok n.
Proof. intros E. unfold int. now rewrite E. Qed.

Lemma int_unparsed (s : string) :
  parse_int s = None ->
  int s = Raise (int_error s).
Proof. intros E. unfold int. now rewrite E. Qed.

End PyFacts.

(* ===================================================================== *)
(** * Properties of the configuration loader                             *)
(* ===================================================================== *)

Section LoaderProperties.
Import Py Loader LoaderSpec.

(** One turn of the loop on an item without identifier: a warning, and on
    with the rest. *)
Lemma load_loop_skip env_vars key value rest configs :
  complete env_vars (key, value) = false ->
  load_loop env_vars ((key, value) :: rest) configs =
  let (logs, r) := load_loop env_vars rest configs in
  (skip_warning key :: logs, r).
Proof.
  unfold complete, uid_of, skip_warning. cbn [load_loop fst]. cbv zeta.
  destruct (assoc ("PLAYER_UID_" ++ player_name_of key) env_vars)
    as [ [ | c uid ] | ]; intros E; try discriminate; reflexivity.
Qed.

(** One turn on an item with its identifier: the delay is parsed, and the
    record joins [configs] when it parses. *)
Lemma load_loop_keep env_vars key value rest configs :
  complete env_vars (key, value) = true ->
  load_loop env_vars ((key, value) :: rest) configs =
  match int (delay_text env_vars key) with
  | Raise e => ([], Raise e)
  | Ok _ =>
      let config := record_of env_vars (key, value) in
      let (logs, r) := load_loop env_vars rest (configs ++ [config])%list in
      (loaded_info config :: logs, r)
  end.
Proof.
  cbn [load_loop]. cbv zeta.
  unfold complete, record_of, uid_of, delay_text, loaded_info, int.
  cbn [fst snd].
  destruct (assoc ("PLAYER_UID_" ++ player_name_of key) env_vars)
    as [ [ | c uid ] | ]; intros E; try discriminate.
  destruct (parse_int _); reflexivity.
Qed.

Lemma skip_warnings_cons_warning key logs :
  skip_warnings (skip_warning key :: logs) =
  skip_warning key :: skip_warnings logs.
Proof. reflexivity. Qed.

Lemma skip_warnings_cons_info config logs :
  skip_warnings (loaded_info config :: logs) = skip_warnings logs.
Proof. reflexivity. Qed.

(** When every delay of the items with an identifier parses, the loop adds
    the record of each of them, in order, and warns once for each other
    item. *)
Lemma load_loop_all_parse env_vars tokens :
  Forall (delay_parses env_vars) (filter (complete env_vars) tokens) ->
  forall configs, exists logs,
    load_loop env_vars tokens configs =
      (logs,
       Ok (configs ++ map (record_of env_vars)
                          (filter (complete env_vars) tokens))%list)
    /\ skip_warnings logs =
       map (fun item => skip_warning (fst item))
           (filter (fun item => negb (complete env_vars item)) tokens).
Proof.
  induction tokens as [ | [key value] rest IH ]; intros Hparse configs.
  - exists []. simpl. now rewrite app_nil_r.
  - simpl filter in *.
    destruct (complete env_vars (key, value)) eqn:Ecomplete; simpl negb; cbv iota.
    + inversion Hparse as [ | item items Hitem Hrest ]; subst.
      rewrite (load_loop_keep _ _ _ _ _ Ecomplete).
      unfold delay_parses in Hitem. simpl fst in Hitem.
      destruct (parse_int (delay_text env_vars key)) as [ seconds | ] eqn:Eparse;
        [ | contradiction ].
      rewrite (int_parsed _ _ Eparse). cbv zeta.
      destruct (IH Hrest (configs ++ [record_of env_vars (key, value)])%list)
        as (logs & Erun & Ewarn).
      rewrite Erun. eexists. split.
      * simpl map. now rewrite <- app_assoc.
      * rewrite skip_warnings_cons_info. exact Ewarn.
    + rewrite (load_loop_skip _ _ _ _ _ Ecomplete).
      destruct (IH Hparse configs) as (logs & Erun & Ewarn).
      rewrite Erun. eexists. split; [ reflexivity | ].
      rewrite skip_warnings_cons_warning. simpl map. now rewrite Ewarn.
Qed.

(** When the delay of an item with its identifier does not parse, the loop
    ends in the [ValueError] of [int]. *)
Lemma load_loop_unparsed env_vars tokens :
  Exists (fun item => ~ delay_parses env_vars item)
         (filter (complete env_vars) tokens) ->
  forall configs, exists logs text,
    load_loop env_vars tokens configs = (logs, Raise (int_error text))
    /\ parse_int text = None.
Proof.
  induction tokens as [ | [key value] rest IH ]; intros Hbad configs.
  - inversion Hbad.
  - simpl filter in Hbad.
    destruct (complete env_vars (key, value)) eqn:Ecomplete.
    + rewrite (load_loop_keep _ _ _ _ _ Ecomplete).
      destruct (parse_int (delay_text env_vars key)) as [ seconds | ] eqn:Eparse.
      * rewrite (int_parsed _ _ Eparse). cbv zeta.
        assert (Hrest : Exists (fun item => ~ delay_parses env_vars item)
                               (filter (complete env_vars) rest)).
        { inversion Hbad as [ item items Hitem | item items Hitems ]; subst.
          - exfalso. apply Hitem. unfold delay_parses. simpl. congruence.
          - exact Hitems. }
        destruct (IH Hrest (configs ++ [record_of env_vars (key, value)])%list)
          as (logs & text & Erun & Etext).
        rewrite Erun. eauto.
      * exists [], (delay_text env_vars key). split; [ | exact Eparse ].
        rewrite (int_unparsed _ Eparse). reflexivity.
    + rewrite (load_loop_skip _ _ _ _ _ Ecomplete).
      destruct (IH Hbad configs) as (logs & text & Erun & Etext).
      rewrite Erun. eauto.
Qed.

Lemma delay_parses_dec env_vars item :
  {delay_parses env_vars item} + {~ delay_parses env_vars item}.
Proof.
  unfold delay_parses.
  destruct (parse_int (delay_text env_vars (fst item)));
    [ left; discriminate | right; intros E; now apply E ].
Qed.

Lemma skip_warnings_fatal logs :
  skip_warnings (logs ++ [fatal_record]) = skip_warnings logs.
Proof.
  unfold skip_warnings. rewrite filter_app. simpl. apply app_nil_r.
Qed.

(** [parse_player_configs] after its loop. *)
Lemma parse_after_loop env_vars logs r :
  load_loop env_vars (player_tokens env_vars) [] = (logs, r) ->
  parse_player_configs env_vars =
  match r with
  | Ok [] => ((logs ++ [fatal_record])%list, Raise no_configurations)
  | _ => (logs, r)
  end.
Proof.
  intros E. unfold parse_player_configs. rewrite E.
  destruct r as [ [ | config configs ] | e ]; reflexivity.
Qed.

Lemma parse_all_parse env_vars :
  Forall (delay_parses env_vars) (well_formed env_vars) ->
  exists logs,
    skip_warnings logs =
      map (fun item => skip_warning (fst item)) (incomplete env_vars)
    /\ parse_player_configs env_vars =
       match well_formed env_vars with
       | [] => ((logs ++ [fatal_record])%list, Raise no_configurations)
       | items => (logs, Ok (map (record_of env_vars) items))
       end.
Proof.
  intros Hparse.
  destruct (load_loop_all_parse env_vars (player_tokens env_vars) Hparse [])
    as (logs & Erun & Ewarn).
  exists logs. split; [ exact Ewarn | ].
  rewrite (parse_after_loop _ _ _ Erun). simpl app.
  fold (well_formed env_vars).
  destruct (well_formed env_vars); reflexivity.
Qed.

Lemma parse_unparsed env_vars :
  Exists (fun item => ~ delay_parses env_vars item) (well_formed env_vars) ->
  exists logs text,
    parse_player_configs env_vars = (logs, Raise (int_error text))
    /\ parse_int text = None.
Proof.
  intros Hbad.
  destruct (load_loop_unparsed env_vars (player_tokens env_vars) Hbad [])
    as (logs & text & Erun & Etext).
  exists logs, text. split; [ | exact Etext ].
  now rewrite (parse_after_loop _ _ _ Erun).
Qed.

Lemma record_delay_as_configured env_vars item :
  delay_parses env_vars item ->
  delay_as_configured env_vars (record_of env_vars item).
Proof.
  unfold delay_parses, delay_as_configured, record_of, delay_text.
  cbn [name startup_delay].
  destruct (assoc ("STARTUP_DELAY_" ++ player_name_of (fst item)) env_vars)
    as [ text | ].
  - destruct (parse_int text); [ reflexivity | contradiction ].
  - reflexivity.
Qed.

(** C3, as amended. For every environment in which the startup delay of
    each token item that has its identifier parses as an integer: the loader
    logs exactly one skip-warning per token item without identifier (M of
    them); when N >= 1 items have their identifier it returns exactly N
    records, those of these items in their order; and when N = 0 it raises
    the configuration error instead of returning. *)
Theorem loader_counts (env_vars : environ) :
  Forall (delay_parses env_vars) (well_formed env_vars) ->
  exists logs r,
    parse_player_configs env_vars = (logs, r)
    /\ skip_warnings logs
       = map (fun item => skip_warning (fst item)) (incomplete env_vars)
    /\ List.length (skip_warnings logs) = List.length (incomplete env_vars)
    /\ (well_formed env_vars <> [] ->
        exists configs,
          r = Ok configs
          /\ List.length configs = List.length (well_formed env_vars)
          /\ configs = map (record_of env_vars) (well_formed env_vars))
    /\ (well_formed env_vars = [] -> r = Raise no_configurations).
Proof.
  intros Hparse.
  destruct (parse_all_parse env_vars Hparse) as (logs & Ewarn & Erun).
  destruct (well_formed env_vars) as [ | item items ] eqn:Eitems.
  - exists (logs ++ [fatal_record])%list, (Raise no_configurations).
    split; [ exact Erun | ]. rewrite skip_warnings_fatal, Ewarn.
    split; [ reflexivity | ]. split; [ apply length_map | ]. split.
    + intros Hne. now contradiction Hne.
    + reflexivity.
  - exists logs, (Ok (map (record_of env_vars) (item :: items))).
    split; [ exact Erun | ]. rewrite Ewarn.
    split; [ reflexivity | ]. split; [ apply length_map | ]. split.
    + intros _. eexists. split; [ reflexivity | ].
      split; [ apply length_map | reflexivity ].
    + discriminate.
Qed.

(** The amended C3 on an environment with three token keys, two of them
    with their identifier, and the reserved key. *)
Lemma loader_counts_witness :
  exists logs configs,
    parse_player_configs Scenario.env_two_of_three = (logs, Ok configs)
    /\ List.length configs = 2%nat
    /\ map name configs = ["DAAN"; "EVA"]
    /\ skip_warnings logs
       = [LogRecord WARNING "Missing PLAYER_UID_NINO for player NINO, skipping..."].
Proof.
  destruct (loader_counts Scenario.env_two_of_three)
    as (logs & r & Erun & Ewarn & _ & Hsome & _).
  - repeat constructor; discriminate.
  - destruct Hsome as (configs & Er & Elen & Econfigs); [ discriminate | ].
    exists logs, configs. rewrite <- Er.
    split; [ exact Erun | ]. split; [ exact Elen | ].
    split; [ now rewrite Econfigs | exact Ewarn ].
Defined.

(** C3 as stated fails: one token key with its identifier (N = 1, M = 0),
    whose startup delay is the text "soon"; the loader returns no record. *)
Lemma loader_counts_fail_on_delay :
  List.length (well_formed Scenario.env_delay_soon) = 1%nat
  /\ List.length (incomplete Scenario.env_delay_soon) = 0%nat
  /\ parse_player_configs Scenario.env_delay_soon
     = ([], Raise (Exn ValueError
                    "invalid literal for int() with base 10: 'soon'")).
Proof. repeat split. Qed.

(** C4, as amended. For every environment: each record the loader returns
    carries the integer that its player's startup-delay key spells, and 0
    when the key is absent; when no token item with its identifier has the
    key, the loader either returns records whose delay is 0 or ends in the
    configuration error; and when the key of such an item is present with a
    text that is not an integer, the loader raises the [ValueError] of [int]
    and returns no record. *)
Theorem startup_delay_read (env_vars : environ) :
  (forall logs configs,
      parse_player_configs env_vars = (logs, Ok configs) ->
      Forall (delay_as_configured env_vars) configs)
  /\ (Forall (no_delay_key env_vars) (well_formed env_vars) ->
      exists logs r,
        parse_player_configs env_vars = (logs, r)
        /\ (r = Raise no_configurations
            \/ exists configs,
                 r = Ok configs
                 /\ Forall (fun config => startup_delay config = 0) configs))
  /\ (Exists (fun item => ~ delay_parses env_vars item) (well_formed env_vars) ->
      exists logs text,
        parse_player_configs env_vars = (logs, Raise (int_error text))
        /\ parse_int text = None).
Proof.
  split; [ | split ].
  - intros logs configs Erun.
    destruct (Forall_Exists_dec (delay_parses env_vars)
                (delay_parses_dec env_vars) (well_formed env_vars))
      as [ Hparse | Hbad ].
    + destruct (parse_all_parse env_vars Hparse) as (logs' & _ & Erun').
      rewrite Erun in Erun'.
      assert (Econfigs : configs
                         = map (record_of env_vars) (well_formed env_vars)).
      { destruct (well_formed env_vars); [ discriminate | ].
        now injection Erun'. }
      rewrite Econfigs. apply Forall_map. revert Hparse. apply Forall_impl.
      intros item. apply record_delay_as_configured.
    + destruct (parse_unparsed env_vars Hbad) as (logs' & text & Erun' & _).
      rewrite Erun in Erun'. discriminate.
  - intros Hnone.
    assert (Hparse : Forall (delay_parses env_vars) (well_formed env_vars)).
    { revert Hnone. apply Forall_impl. intros item Hitem.
      unfold delay_parses, delay_text. unfold no_delay_key in Hitem.
      rewrite Hitem. discriminate. }
    destruct (parse_all_parse env_vars Hparse) as (logs & _ & Erun).
    assert (Hzero : Forall (fun config => startup_delay config = 0)
                      (map (record_of env_vars) (well_formed env_vars))).
    { apply Forall_map. revert Hnone. apply Forall_impl.
      intros item Hitem. unfold record_of, delay_text. cbn [startup_delay].
      unfold no_delay_key in Hitem. now rewrite Hitem. }
    destruct (well_formed env_vars) as [ | item items ].
    + eexists _, _. split; [ exact Erun | ]. now left.
    + eexists _, _. split; [ exact Erun | ]. right.
      eexists. split; [ reflexivity | exact Hzero ].
  - apply parse_unparsed.
Qed.

(** The amended C4 at work: a delay of "30" is read as 30 and an absent one
    as 0; the text "2.5" ends the loader. *)
Lemma startup_delay_read_witness :
  map startup_delay
      (map (record_of Scenario.env_two_of_three)
           (well_formed Scenario.env_two_of_three)) = [0; 30]
  /\ Forall (delay_as_configured Scenario.env_two_of_three)
            (map (record_of Scenario.env_two_of_three)
                 (well_formed Scenario.env_two_of_three))
  /\ exists logs text,
       parse_player_configs Scenario.env_delay_fraction
       = (logs, Raise (int_error text))
       /\ parse_int text = None.
Proof.
  split; [ reflexivity | ]. split.
  - exact (proj1 (startup_delay_read Scenario.env_two_of_three) _ _ eq_refl).
  - apply (proj2 (proj2 (startup_delay_read Scenario.env_delay_fraction))).
    apply Exists_cons_hd. intros Hparse. now apply Hparse.
Defined.

(** C4 as stated fails: the startup-delay key is present with the text
    "2.5", which is not an integer, and the loader raises instead of
    completing with a delay of 0. *)
Lemma startup_delay_unparsable_raises :
  assoc "STARTUP_DELAY_DAAN" Scenario.env_delay_fraction = Some "2.5"
  /\ parse_int "2.5" = None
  /\ parse_player_configs Scenario.env_delay_fraction
     = ([], Raise (Exn ValueError
                    "invalid literal for int() with base 10: '2.5'")).
Proof. repeat split. Qed.

(** C5. When no token item of the environment has its identifier, the
    loader logs its fatal record and raises the configuration error, so it
    returns no record; and [main] ends with that error before it opens the
    HTTP session or starts any bot. *)
Theorem no_players_is_fatal (env_vars : environ) :
  well_formed env_vars = [] ->
  exists logs,
    parse_player_configs env_vars
    = ((logs ++ [fatal_record])%list, Raise no_configurations)
    /\ main env_vars
       = (map Logged (logs ++ [fatal_record]), Raise no_configurations)
    /\ filter is_session_event (fst (main env_vars)) = [].
Proof.
  intros Enone.
  assert (Hparse : Forall (delay_parses env_vars) (well_formed env_vars))
    by (rewrite Enone; constructor).
  destruct (parse_all_parse env_vars Hparse) as (logs & _ & Erun).
  rewrite Enone in Erun. exists logs.
  split; [ exact Erun | ].
  unfold main. rewrite Erun. split; [ reflexivity | ].
  cbn [fst]. clear. induction (logs ++ [fatal_record])%list as [ | r l IH ];
    [ reflexivity | exact IH ].
Qed.

Lemma no_players_is_fatal_witness :
  exists logs,
    parse_player_configs Scenario.env_no_identifier
    = ((logs ++ [fatal_record])%list, Raise no_configurations)
    /\ main Scenario.env_no_identifier
       = (map Logged (logs ++ [fatal_record]), Raise no_configurations)
    /\ filter is_session_event (fst (main Scenario.env_no_identifier)) = [].
Proof. apply (no_players_is_fatal Scenario.env_no_identifier). reflexivity. Defined.

End LoaderProperties.

(* ===================================================================== *)
(** * Properties of a bot session                                        *)
(* ===================================================================== *)

Section BotProperties.
Import Py Bot BotSpec.
#[local] Open Scope py_scope.
Context `{Repr}.
Variable self : ApexPlayerBot.

(** Unfolds the plumbing of [M] in the goal. *)
Ltac run :=
  unfold log;
  unfold bind, ret, lift, emit, call, get_state, set_last_known_score,
    set_last_known_name, try_except, get_stats, get_image;
  cbn [fst snd app andb trace_of state_of outcome_of and_then
       last_known_name last_known_score].

(** ** Reading the trace of a sequence *)

Lemma presence_calls_app t u :
  presence_calls (t ++ u) = (presence_calls t ++ presence_calls u)%list.
Proof. apply flat_map_app. Qed.

Lemma nickname_calls_app t u :
  nickname_calls (t ++ u) = (nickname_calls t ++ nickname_calls u)%list.
Proof. apply flat_map_app. Qed.

Lemma avatar_downloads_app t u :
  avatar_downloads (t ++ u) = (avatar_downloads t ++ avatar_downloads u)%list.
Proof. apply flat_map_app. Qed.

Lemma avatar_uploads_app t u :
  avatar_uploads (t ++ u) = (avatar_uploads t ++ avatar_uploads u)%list.
Proof. apply flat_map_app. Qed.

(** ** The nickname pass *)

(** On one server: the exceptions stay inside, the state is not touched. *)
Lemma update_nickname_in_run new_nick g s :
  update_nickname_in self new_nick g s
  = (pass_events self new_nick [g], s, Ok tt).
Proof.
  unfold pass_events, for_each, update_nickname_in, me_of. run.
  destruct (me g) as [ m | ].
  - destruct (neb (nick m) new_nick); run; [ | reflexivity ].
    destruct (edit m new_nick) as [ e | ]; [ | reflexivity ].
    destruct (is_forbidden e); reflexivity.
  - reflexivity.
Qed.

Lemma pass_events_cons new_nick g servers :
  pass_events self new_nick (g :: servers)
  = (pass_events self new_nick [g] ++ pass_events self new_nick servers)%list.
Proof.
  unfold pass_events at 1 3. cbn [for_each]. unfold bind at 1.
  rewrite update_nickname_in_run.
  destruct (for_each servers _ empty_state) as [[t s'] r]. reflexivity.
Qed.

Lemma for_each_nickname_run new_nick servers s :
  for_each servers (update_nickname_in self new_nick) s
  = (pass_events self new_nick servers, s, Ok tt).
Proof.
  induction servers as [ | g servers IH ]; [ reflexivity | ].
  rewrite pass_events_cons. cbn [for_each]. unfold bind.
  now rewrite update_nickname_in_run, IH.
Qed.

Lemma pass_events_app new_nick before after :
  pass_events self new_nick (before ++ after)
  = (pass_events self new_nick before ++ pass_events self new_nick after)%list.
Proof.
  induction before as [ | g before IH ]; [ reflexivity | ].
  simpl app.
  rewrite (pass_events_cons _ g (before ++ after)),
    (pass_events_cons _ g before), IH.
  apply app_assoc.
Qed.

Lemma update_all_nicknames_run w new_nick s :
  update_all_nicknames self w new_nick s
  = (nickname_log self new_nick :: pass_events self new_nick (guilds w), s, Ok tt).
Proof.
  unfold update_all_nicknames. run.
  now rewrite for_each_nickname_run.
Qed.


Lemma pass_events_nickname_calls new_nick servers :
  nickname_calls (pass_events self new_nick servers)
  = map (fun g => (guild_name g, new_nick))
        (filter (wants_nick new_nick) servers).
Proof.
  induction servers as [ | g servers IH ]; [ reflexivity | ].
  rewrite pass_events_cons, nickname_calls_app, IH. clear IH.
  cbn [filter]. unfold wants_nick at 2.
  unfold pass_events, for_each, update_nickname_in, me_of. run.
  destruct (me g) as [ m | ]; [ | reflexivity ].
  destruct (neb (nick m) new_nick); run; [ | reflexivity ].
  destruct (edit m new_nick) as [ e | ]; [ | reflexivity ].
  destruct (is_forbidden e); reflexivity.
Qed.

Lemma pass_events_presence_calls new_nick servers :
  presence_calls (pass_events self new_nick servers) = [].
Proof.
  induction servers as [ | g servers IH ]; [ reflexivity | ].
  rewrite pass_events_cons, presence_calls_app, IH, app_nil_r. clear IH.
  unfold pass_events, for_each, update_nickname_in, me_of. run.
  destruct (me g) as [ m | ]; [ | reflexivity ].
  destruct (neb (nick m) new_nick); run; [ | reflexivity ].
  destruct (edit m new_nick) as [ e | ]; [ | reflexivity ].
  destruct (is_forbidden e); reflexivity.
Qed.

Lemma pass_events_avatar new_nick servers :
  avatar_downloads (pass_events self new_nick servers) = []
  /\ avatar_uploads (pass_events self new_nick servers) = [].
Proof.
  induction servers as [ | g servers [IHd IHu] ]; [ now split | ].
  rewrite pass_events_cons, avatar_downloads_app, avatar_uploads_app, IHd, IHu,
    !app_nil_r.
  clear IHd IHu.
  unfold pass_events, for_each, update_nickname_in, me_of. run.
  destruct (me g) as [ m | ]; [ | now split ].
  destruct (neb (nick m) new_nick); run; [ | now split ].
  destruct (edit m new_nick) as [ e | ]; [ | now split ].
  destruct (is_forbidden e); now split.
Qed.

(** ** The avatar update *)

(** The exceptions stay inside, the state is not touched. *)
Lemma update_avatar_run w url s :
  update_avatar self w url s = (avatar_events self w url, s, Ok tt).
Proof.
  unfold avatar_events, update_avatar. run.
  destruct (session_get w url) as [ resp | e ]; [ | reflexivity ].
  destruct (status resp =? 200); [ | reflexivity ].
  destruct (body resp) as [ raw | e ]; [ | reflexivity ].
  destruct (reencode w raw) as [ png | e ]; [ | reflexivity ].
  destruct (user_edit w png); reflexivity.
Qed.

(** An avatar update is one download, then at most the upload of the
    re-encoded picture; it does nothing to presence or nicknames. *)
Lemma avatar_events_calls w url :
  avatar_downloads (avatar_events self w url) = [url]
  /\ avatar_uploads (avatar_events self w url) = uploaded w url
  /\ presence_calls (avatar_events self w url) = []
  /\ nickname_calls (avatar_events self w url) = [].
Proof.
  unfold avatar_events, update_avatar, uploaded. run.
  destruct (session_get w url) as [ resp | e ]; [ | now repeat split ].
  destruct (status resp =? 200); [ | now repeat split ].
  destruct (body resp) as [ raw | e ]; [ | now repeat split ].
  cbn [and_then].
  destruct (reencode w raw) as [ png | e ]; [ | now repeat split ].
  destruct (user_edit w png); now repeat split.
Qed.

(** ** Steps 2 to 4 *)

Lemma update_from_unformatted w snap s e :
  status_text_of snap = Raise e ->
  update_from self w snap s = ([], s, Raise e).
Proof. intros E. unfold update_from. run. now rewrite E. Qed.

(** The presence call raises: the step ends there. *)
Lemma update_from_presence_raises w snap s text e :
  status_text_of snap = Ok text ->
  differs text (last_known_score s) = true ->
  change_presence w text = Some e ->
  update_from self w snap s = ([ChangePresence text], s, Raise e).
Proof.
  intros Etext Ediff Ecall. unfold update_from. run.
  rewrite Etext, Ediff. run. now rewrite Ecall.
Qed.

(** Otherwise the three steps run to the end. *)
Lemma update_from_completes w snap s text :
  status_text_of snap = Ok text ->
  (differs text (last_known_score s) = true -> change_presence w text = None) ->
  let score_changed := differs text (last_known_score s) in
  let name_changed := neb (player_name snap) (last_known_name s) in
  update_from self w snap s
  = (completed_events self w snap text score_changed name_changed,
     recorded s score_changed name_changed text (player_name snap),
     Ok tt).
Proof.
  intros Etext Ecall. unfold update_from, completed_events. run.
  rewrite Etext. run.
  destruct s as [known_name known_score]. cbn [last_known_score last_known_name] in *.
  destruct (differs text known_score); run.
  - rewrite (Ecall eq_refl). run.
    destruct (neb (player_name snap) known_name); run.
    + rewrite update_all_nicknames_run. run.
      destruct (truthy (rank_img_url snap)); run.
      * rewrite update_avatar_run. unfold recorded, status_log, avatar_log. simpl.
        now rewrite <- app_assoc.
      * unfold recorded, status_log. simpl. now rewrite !app_nil_r.
    + destruct (truthy (rank_img_url snap)); run.
      * now rewrite update_avatar_run.
      * reflexivity.
  - destruct (neb (player_name snap) known_name); run.
    + rewrite update_all_nicknames_run. run.
      rewrite andb_false_r. unfold recorded. simpl. now rewrite !app_nil_r.
    + rewrite andb_false_r. reflexivity.
Qed.

(** The calls of a completed step. *)
Lemma completed_events_calls w snap text score_changed name_changed :
  let t := completed_events self w snap text score_changed name_changed in
  presence_calls t = (if score_changed then [text] else [])
  /\ nickname_calls t
     = (if name_changed
        then map (fun g => (guild_name g, player_name snap))
                 (filter (wants_nick (player_name snap)) (guilds w))
        else [])
  /\ avatar_downloads t
     = (if truthy (rank_img_url snap) && score_changed
        then [rank_img_url snap] else [])
  /\ avatar_uploads t
     = (if truthy (rank_img_url snap) && score_changed
        then uploaded w (rank_img_url snap) else []).
Proof.
  destruct (avatar_events_calls w (rank_img_url snap))
    as (Adown & Aup & Apres & Anick).
  destruct (pass_events_avatar (player_name snap) (guilds w)) as (Pdown & Pup).
  pose proof (pass_events_presence_calls (player_name snap) (guilds w)) as Ppres.
  pose proof (pass_events_nickname_calls (player_name snap) (guilds w)) as Pnick.
  unfold completed_events. cbv zeta.
  rewrite !presence_calls_app, !nickname_calls_app, !avatar_downloads_app,
    !avatar_uploads_app.
  destruct score_changed, name_changed, (truthy (rank_img_url snap));
    cbn [andb]; cbn [presence_calls nickname_calls avatar_downloads
                     avatar_uploads flat_map app status_log nickname_log
                     avatar_log];
    fold (presence_calls (pass_events self (player_name snap) (guilds w)));
    fold (nickname_calls (pass_events self (player_name snap) (guilds w)));
    fold (avatar_downloads (pass_events self (player_name snap) (guilds w)));
    fold (avatar_uploads (pass_events self (player_name snap) (guilds w)));
    fold (presence_calls (avatar_events self w (rank_img_url snap)));
    fold (nickname_calls (avatar_events self w (rank_img_url snap)));
    fold (avatar_downloads (avatar_events self w (rank_img_url snap)));
    fold (avatar_uploads (avatar_events self w (rank_img_url snap)));
    rewrite ?Adown, ?Aup, ?Apres, ?Anick, ?Pdown, ?Pup, ?Ppres, ?Pnick,
      ?app_nil_r;
    repeat split; reflexivity.
Qed.

(** ** The cycle *)

Lemma update_stats_task_fetches w snap s :
  fetches self w snap ->
  update_stats_task self w s
  = match update_from self w snap s with
    | (t, s', Ok _) => (GetStats (api_url self) :: t, s', Ok tt)
    | (t, s', Raise e) =>
        (GetStats (api_url self) :: t ++ [main_loop_error self e], s', Ok tt)
    end.
Proof.
  intros (resp & data & Eget & Estatus & Ejson & Eparse).
  unfold update_stats_task, poll. run.
  rewrite Eget, Estatus. cbn [Z.eqb Pos.eqb]. rewrite Ejson, Eparse.
  destruct (update_from self w snap s) as [[t s'] [ [] | e ]];
    reflexivity.
Qed.


Lemma append_assoc (a b c : string) : (a ++ b) ++ c = a ++ b ++ c.
Proof. induction a as [ | ch a IH ]; simpl; [ reflexivity | now rewrite IH ]. Qed.

Lemma append_empty_r (a : string) : a ++ "" = a.
Proof. induction a as [ | ch a IH ]; simpl; [ reflexivity | now rewrite IH ]. Qed.

Lemma differs_same text : differs text (Some text) = false.
Proof. unfold differs. now rewrite String.eqb_refl. Qed.

Lemma recorded_nothing s text new_name : recorded s false false text new_name = s.
Proof. now destruct s. Qed.

(** The cycle in each of its courses. *)

Lemma cycle_non_200 w resp s :
  session_get w (PyStr (api_url self)) = Ok resp ->
  status resp <> 200 ->
  update_stats_task self w s
  = ([GetStats (api_url self); Log (non_200_record self resp)], s, Ok tt).
Proof.
  intros Eget Hstatus.
  assert (E200 : (status resp =? 200) = false) by now apply Z.eqb_neq.
  unfold update_stats_task, poll, non_200_record. run. rewrite Eget, E200.
  destruct (status resp =? 429); [ reflexivity | ].
  destruct (body resp); reflexivity.
Qed.

Lemma prefix_append (part rest : string) :
  String.prefix part (part ++ rest) = true.
Proof.
  induction part as [ | c part IH ]; [ now destruct rest | ].
  simpl. destruct (ascii_dec c c) as [ _ | Hne ]; [ exact IH | ].
  now contradiction Hne.
Qed.

(** What is contained is found by the search. *)
Lemma contains_occurs (text part : string) :
  contains text part -> occurs part text = true.
Proof.
  intros (before & rest & ->).
  induction before as [ | c before IH ].
  - change ("" ++ part ++ rest) with (part ++ rest).
    assert (E : occurs part (part ++ rest)
                = String.prefix part (part ++ rest)
                  || match part ++ rest with
                     | EmptyString => false
                     | String _ text => occurs part text
                     end)
      by (destruct (part ++ rest); reflexivity).
    rewrite E, prefix_append. reflexivity.
  - simpl append. cbn [occurs]. rewrite IH. apply orb_true_r.
Qed.

Lemma cycle_unformatted w snap s e :
  fetches self w snap ->
  status_text_of snap = Raise e ->
  update_stats_task self w s
  = ([GetStats (api_url self); main_loop_error self e], s, Ok tt).
Proof.
  intros Hfetch Etext.
  now rewrite (update_stats_task_fetches _ _ _ Hfetch),
    (update_from_unformatted _ _ _ _ Etext).
Qed.

Lemma cycle_presence_raises w snap s text e :
  fetches self w snap ->
  status_text_of snap = Ok text ->
  differs text (last_known_score s) = true ->
  change_presence w text = Some e ->
  update_stats_task self w s
  = ([GetStats (api_url self); ChangePresence text; main_loop_error self e],
     s, Ok tt).
Proof.
  intros Hfetch Etext Ediff Ecall.
  now rewrite (update_stats_task_fetches _ _ _ Hfetch),
    (update_from_presence_raises _ _ _ _ _ Etext Ediff Ecall).
Qed.

Lemma cycle_completes w snap s text :
  fetches self w snap ->
  status_text_of snap = Ok text ->
  (differs text (last_known_score s) = true -> change_presence w text = None) ->
  update_stats_task self w s
  = (GetStats (api_url self)
     :: completed_events self w snap text
          (differs text (last_known_score s))
          (neb (player_name snap) (last_known_name s)),
     recorded s (differs text (last_known_score s))
       (neb (player_name snap) (last_known_name s)) text (player_name snap),
     Ok tt).
Proof.
  intros Hfetch Etext Ecall.
  now rewrite (update_stats_task_fetches _ _ _ Hfetch),
    (update_from_completes _ _ _ _ Etext Ecall).
Qed.

(** Whether the cycle reaches step 4 with the flag "score changed" set. *)
Lemma avatar_downloads_of_cycle w snap s text :
  fetches self w snap ->
  status_text_of snap = Ok text ->
  avatar_downloads (trace_of (update_stats_task self w s))
  = (if truthy (rank_img_url snap) && differs text (last_known_score s)
        && returns (change_presence w text)
     then [rank_img_url snap] else []).
Proof.
  intros Hfetch Etext.
  destruct (differs text (last_known_score s)) eqn:Ediff.
  - destruct (change_presence w text) as [ e | ] eqn:Ecall.
    + rewrite (cycle_presence_raises _ _ _ _ _ Hfetch Etext Ediff Ecall).
      now rewrite andb_false_r.
    + rewrite (cycle_completes _ _ _ _ Hfetch Etext (fun _ => Ecall)), Ediff.
      cbn [trace_of fst avatar_downloads flat_map app returns].
      fold (avatar_downloads
              (completed_events self w snap text true
                 (neb (player_name snap) (last_known_name s)))).
      rewrite (proj1 (proj2 (proj2 (completed_events_calls _ _ _ _ _)))).
      now rewrite !andb_true_r.
  - assert (Ecall : differs text (last_known_score s) = true ->
                    change_presence w text = None) by (rewrite Ediff; discriminate).
    rewrite (cycle_completes _ _ _ _ Hfetch Etext Ecall), Ediff.
    cbn [trace_of fst avatar_downloads flat_map app].
    fold (avatar_downloads
            (completed_events self w snap text false
               (neb (player_name snap) (last_known_name s)))).
    rewrite (proj1 (proj2 (proj2 (completed_events_calls _ _ _ _ _)))).
    now rewrite !andb_false_r.
Qed.

(** A cycle that downloads a badge has fetched a snapshot with a badge
    address and a status text that differs from the last known one. *)
Lemma avatar_only_if w s :
  avatar_downloads (trace_of (update_stats_task self w s)) <> [] ->
  exists snap text,
    fetches self w snap
    /\ status_text_of snap = Ok text
    /\ truthy (rank_img_url snap) = true
    /\ differs text (last_known_score s) = true.
Proof.
  destruct (session_get w (PyStr (api_url self))) as [ resp | e ] eqn:Eget.
  2: { unfold update_stats_task, poll. run. rewrite Eget.
       intros Hdown. now contradiction Hdown. }
  destruct (Z.eq_dec (status resp) 200) as [ E200 | N200 ].
  2: { rewrite (cycle_non_200 _ _ _ Eget N200).
       intros Hdown. now contradiction Hdown. }
  destruct (json resp) as [ data | e ] eqn:Ejson.
  2: { unfold update_stats_task, poll. run.
       rewrite Eget, E200. cbn [Z.eqb Pos.eqb]. rewrite Ejson.
       intros Hdown. now contradiction Hdown. }
  destruct (parse_data data) as [ snap | e ] eqn:Eparse.
  2: { unfold update_stats_task, poll. run.
       rewrite Eget, E200. cbn [Z.eqb Pos.eqb]. rewrite Ejson, Eparse.
       intros Hdown. now contradiction Hdown. }
  assert (Hfetch : fetches self w snap) by (exists resp, data; auto).
  destruct (status_text_of snap) as [ text | e ] eqn:Etext.
  2: { rewrite (cycle_unformatted _ _ _ _ Hfetch Etext).
       intros Hdown. now contradiction Hdown. }
  rewrite (avatar_downloads_of_cycle _ _ _ _ Hfetch Etext).
  destruct (truthy (rank_img_url snap)) eqn:Eurl,
           (differs text (last_known_score s)) eqn:Ediff;
    cbn [andb]; intros Hdown; try now contradiction Hdown.
  exists snap, text. auto.
Qed.

(** ** The claims on a cycle *)

(** C8, as amended. In every cycle in which the stats API answers with a
    status other than 200, the cycle makes no presence, nickname or avatar
    call and logs exactly one record: the rate-limit warning on 429;
    otherwise, when the body of the answer can be read, an error that
    spells the status and the body, and when reading the body raises, the
    error of the handler of the cycle for that exception. The state of the
    session is unchanged, and the loop goes on with the next tick from that
    same state. *)
Theorem non_200_cycle (w : world) (resp : response) (s : PollState) :
  session_get w (PyStr (api_url self)) = Ok resp ->
  status resp <> 200 ->
  exists record,
    update_stats_task self w s
    = ([GetStats (api_url self); Log record], s, Ok tt)
    /\ (status resp = 429 -> record = rate_limit_record self)
    /\ (status resp <> 429 ->
        forall error_text,
          body resp = Ok error_text ->
          record = api_failed_record self resp error_text
          /\ contains (message record) (str_of_Z (status resp))
          /\ contains (message record) error_text)
    /\ (status resp <> 429 ->
        forall e, body resp = Raise e -> record = main_loop_record self e)
    /\ presence_calls (trace_of (update_stats_task self w s)) = []
    /\ nickname_calls (trace_of (update_stats_task self w s)) = []
    /\ avatar_downloads (trace_of (update_stats_task self w s)) = []
    /\ avatar_uploads (trace_of (update_stats_task self w s)) = []
    /\ logged (trace_of (update_stats_task self w s)) = [record]
    /\ forall ticks,
         run_loop self (w :: ticks) s
         = match run_loop self ticks s with
           | (t, s', r) => (GetStats (api_url self) :: Log record :: t, s', r)
           end.
Proof.
  intros Eget Hstatus.
  pose proof (cycle_non_200 w resp s Eget Hstatus) as Erun.
  exists (non_200_record self resp). split; [ exact Erun | ].
  split; [ intros E429; unfold non_200_record; now rewrite E429 | ].
  split.
  { intros H429 error_text Ebody. apply Z.eqb_neq in H429.
    unfold non_200_record. rewrite H429, Ebody.
    split; [ reflexivity | ]. unfold api_failed_record, contains. cbn [message].
    split.
    - exists (tag self ++ "API Failed: "), (" - " ++ error_text).
      now rewrite append_assoc.
    - exists (tag self ++ "API Failed: " ++ str_of_Z (status resp) ++ " - "), "".
      now rewrite append_empty_r, !append_assoc. }
  split.
  { intros H429 e Ebody. apply Z.eqb_neq in H429.
    unfold non_200_record. now rewrite H429, Ebody. }
  rewrite Erun. cbn [trace_of fst].
  repeat (split; [ reflexivity | ]).
  intros ticks. unfold run_loop. cbn [for_each]. unfold bind. rewrite Erun.
  now destruct (for_each ticks (update_stats_task self) s) as [[t s'] r].
Qed.

(** C10. When the presence call of a cycle raises, the rest of the cycle is
    abandoned: the status text is not recorded, no nickname update and no
    avatar update is attempted, whether or not the display name differs from
    the last known one, and the last known display name stays as it was;
    the exception is logged by the handler of the cycle. *)
Theorem presence_failure_abandons_cycle (w : world) (snap : StatsSnapshot)
    (s : PollState) (text : string) (e : exn) :
  fetches self w snap ->
  status_text_of snap = Ok text ->
  differs text (last_known_score s) = true ->
  change_presence w text = Some e ->
  update_stats_task self w s
  = ([GetStats (api_url self); ChangePresence text; main_loop_error self e],
     s, Ok tt)
  /\ last_known_score (state_of (update_stats_task self w s))
     = last_known_score s
  /\ last_known_name (state_of (update_stats_task self w s))
     = last_known_name s
  /\ nickname_calls (trace_of (update_stats_task self w s)) = []
  /\ avatar_downloads (trace_of (update_stats_task self w s)) = []
  /\ avatar_uploads (trace_of (update_stats_task self w s)) = [].
Proof.
  intros Hfetch Etext Ediff Ecall.
  rewrite (cycle_presence_raises _ _ _ _ _ Hfetch Etext Ediff Ecall).
  repeat split.
Qed.

(** C9. In a nickname pass, a server that refuses the edit ("forbidden") is
    logged with a warning of its own and the pass goes on: the servers after
    it are treated exactly as in a pass over them alone, and the pass itself
    never raises. And whenever a cycle reaches the nickname step with a
    display name that differs from the last known one, that name is the last
    known one after the cycle, whatever the servers answered. *)
Theorem forbidden_server_is_skipped :
  (forall (w : world) (new_nick : pyval) (before after : list guild)
          (g : guild) (m : member) (e : exn) (s : PollState),
      guilds w = (before ++ g :: after)%list ->
      me g = Some m ->
      neb (nick m) new_nick = true ->
      edit m new_nick = Some e ->
      is_forbidden e = true ->
      update_all_nicknames self w new_nick s
      = ((nickname_log self new_nick :: pass_events self new_nick before)
         ++ [EditNick (guild_name g) new_nick;
             missing_permissions_warning self g]
         ++ pass_events self new_nick after, s, Ok tt)%list
      /\ nickname_calls (trace_of (update_all_nicknames self w new_nick s))
         = (map (fun g' => (guild_name g', new_nick))
                (filter (wants_nick new_nick) before)
            ++ [(guild_name g, new_nick)]
            ++ map (fun g' => (guild_name g', new_nick))
                   (filter (wants_nick new_nick) after))%list)
  /\ (forall (w : world) (snap : StatsSnapshot) (text : string)
             (s : PollState),
         fetches self w snap ->
         status_text_of snap = Ok text ->
         (differs text (last_known_score s) = true ->
          change_presence w text = None) ->
         neb (player_name snap) (last_known_name s) = true ->
         last_known_name (state_of (update_stats_task self w s))
         = player_name snap
         /\ outcome_of (update_stats_task self w s) = Ok tt).
Proof.
  split.
  - intros w new_nick before after g m e s Eguilds Eme Ewants Eedit Eforbidden.
    assert (Eg : pass_events self new_nick [g]
                 = [EditNick (guild_name g) new_nick;
                    missing_permissions_warning self g]).
    { unfold pass_events, for_each, update_nickname_in, me_of. run.
      rewrite Eme. run. rewrite Ewants. run. now rewrite Eedit, Eforbidden. }
    assert (Erun : update_all_nicknames self w new_nick s
      = ((nickname_log self new_nick :: pass_events self new_nick before)
         ++ [EditNick (guild_name g) new_nick;
             missing_permissions_warning self g]
         ++ pass_events self new_nick after, s, Ok tt)%list).
    { rewrite update_all_nicknames_run, Eguilds, pass_events_app,
        pass_events_cons, Eg. reflexivity. }
    split; [ exact Erun | ].
    rewrite Erun. cbn [trace_of fst].
    change (nickname_log self new_nick :: pass_events self new_nick before)%list
      with ([nickname_log self new_nick] ++ pass_events self new_nick before)%list.
    rewrite !nickname_calls_app, !pass_events_nickname_calls. reflexivity.
  - intros w snap text s Hfetch Etext Ecall Ename.
    rewrite (cycle_completes _ _ _ _ Hfetch Etext Ecall), Ename.
    split; reflexivity.
Qed.

(** C7, as amended. In every cycle the avatar update runs only if the
    snapshot has a badge address and the status text differs from the last
    known one; given both, it runs exactly when the presence call of the
    cycle returns (an exception there abandons the cycle before the avatar
    step); and with an unchanged status text no avatar update runs, whatever
    the display name. *)
Theorem avatar_gate :
  (forall (w : world) (s : PollState),
      avatar_downloads (trace_of (update_stats_task self w s)) <> [] ->
      exists snap text,
        fetches self w snap
        /\ status_text_of snap = Ok text
        /\ truthy (rank_img_url snap) = true
        /\ differs text (last_known_score s) = true)
  /\ (forall (w : world) (snap : StatsSnapshot) (s : PollState)
             (text : string),
         fetches self w snap ->
         status_text_of snap = Ok text ->
         avatar_downloads (trace_of (update_stats_task self w s))
         = (if truthy (rank_img_url snap)
               && differs text (last_known_score s)
               && returns (change_presence w text)
            then [rank_img_url snap] else [])
         /\ (differs text (last_known_score s) = false ->
             avatar_downloads (trace_of (update_stats_task self w s)) = [])).
Proof.
  split; [ exact avatar_only_if | ].
  intros w snap s text Hfetch Etext.
  rewrite (avatar_downloads_of_cycle _ _ _ _ Hfetch Etext).
  split; [ reflexivity | ].
  intros Esame. now rewrite Esame, andb_false_r.
Qed.

(** C6, as amended. When a cycle in which the presence call does not raise
    is followed by a cycle that fetches the same snapshot, the second cycle
    finds the status text and the display name equal to the last known
    ones: it makes no presence call, no nickname call and no avatar call,
    and leaves the state as the first cycle left it. *)
Theorem second_cycle_is_silent (w1 w2 : world) (snap : StatsSnapshot)
    (s0 : PollState) :
  fetches self w1 snap ->
  fetches self w2 snap ->
  (forall text,
      status_text_of snap = Ok text ->
      differs text (last_known_score s0) = true ->
      change_presence w1 text = None) ->
  let s1 := state_of (update_stats_task self w1 s0) in
  let second := update_stats_task self w2 s1 in
  presence_calls (trace_of second) = []
  /\ nickname_calls (trace_of second) = []
  /\ avatar_downloads (trace_of second) = []
  /\ avatar_uploads (trace_of second) = []
  /\ state_of second = s1.
Proof.
  intros Hfetch1 Hfetch2 Hcall. cbv zeta.
  destruct (status_text_of snap) as [ text | e ] eqn:Etext.
  - rewrite (cycle_completes _ _ _ _ Hfetch1 Etext (Hcall text eq_refl)).
    cbn [state_of fst snd].
    set (s1 := recorded s0 _ _ _ _).
    assert (Escore : differs text (last_known_score s1) = false).
    { subst s1. unfold recorded. cbn [last_known_score].
      destruct (differs text (last_known_score s0)) eqn:Ediff;
        [ apply differs_same | exact Ediff ]. }
    assert (Ename : neb (player_name snap) (last_known_name s1) = false).
    { subst s1. unfold recorded. cbn [last_known_name].
      destruct (neb (player_name snap) (last_known_name s0)) eqn:Ediff;
        [ apply py_neb_refl | exact Ediff ]. }
    assert (Ecall : differs text (last_known_score s1) = true ->
                    change_presence w2 text = None)
      by (rewrite Escore; discriminate).
    rewrite (cycle_completes _ _ _ _ Hfetch2 Etext Ecall), Escore, Ename.
    cbn [trace_of state_of fst snd]. rewrite recorded_nothing.
    unfold completed_events. rewrite andb_false_r. repeat split.
  - rewrite (cycle_unformatted _ _ _ _ Hfetch1 Etext). cbn [state_of fst snd].
    rewrite (cycle_unformatted _ _ _ _ Hfetch2 Etext). repeat split.
Qed.

(** C1, as amended. On a first cycle (empty state) that fetches the
    document of the scenario, the status text is "Master 1 - 15,000 RP" and
    exactly one presence update is issued, with that text. When that call
    returns, the cycle goes on with one nickname pass, which attempts the
    edit on each joined server whose nickname is not "Shroud" yet, and one
    avatar update: one download of the badge, and the upload of the
    re-encoded picture when the download answers 200 and the picture
    re-encodes; both last known values are then recorded. *)
Theorem first_cycle_of_scenario (w : world) (resp : response) :
  session_get w (PyStr (api_url self)) = Ok resp ->
  status resp = 200 ->
  json resp = Ok Scenario.shroud ->
  let first := update_stats_task self w empty_state in
  let shroud_name := PyStr "Shroud" in
  let badge := PyStr "http://x/badge.png" in
  parse_data Scenario.shroud = Ok Scenario.shroud_snapshot
  /\ status_text_of Scenario.shroud_snapshot = Ok "Master 1 - 15,000 RP"
  /\ presence_calls (trace_of first) = ["Master 1 - 15,000 RP"]
  /\ (change_presence w "Master 1 - 15,000 RP" = None ->
      nickname_calls (trace_of first)
      = map (fun g => (guild_name g, shroud_name))
            (filter (wants_nick shroud_name) (guilds w))
      /\ avatar_downloads (trace_of first) = [badge]
      /\ avatar_uploads (trace_of first) = uploaded w badge
      /\ state_of first
         = {| last_known_name := shroud_name;
              last_known_score := Some "Master 1 - 15,000 RP" |}).
Proof.
  intros Eget Estatus Ejson. cbv zeta.
  assert (Hfetch : fetches self w Scenario.shroud_snapshot)
    by (exists resp, Scenario.shroud; auto).
  assert (Etext : status_text_of Scenario.shroud_snapshot
                  = Ok "Master 1 - 15,000 RP") by reflexivity.
  split; [ reflexivity | ]. split; [ exact Etext | ]. split.
  - destruct (change_presence w "Master 1 - 15,000 RP") as [ e | ] eqn:Ecall.
    + now rewrite (cycle_presence_raises w _ empty_state _ _ Hfetch Etext
                     eq_refl Ecall).
    + rewrite (cycle_completes w _ empty_state _ Hfetch Etext (fun _ => Ecall)).
      cbn [trace_of fst presence_calls flat_map app].
      fold (presence_calls
              (completed_events self w Scenario.shroud_snapshot
                 "Master 1 - 15,000 RP"
                 (differs "Master 1 - 15,000 RP" (last_known_score empty_state))
                 (neb (player_name Scenario.shroud_snapshot)
                      (last_known_name empty_state)))).
      now rewrite (proj1 (completed_events_calls _ _ _ _ _)).
  - intros Ecall.
    rewrite (cycle_completes w _ empty_state _ Hfetch Etext (fun _ => Ecall)).
    cbn [trace_of state_of fst snd].
    destruct (completed_events_calls w Scenario.shroud_snapshot
                "Master 1 - 15,000 RP"
                (differs "Master 1 - 15,000 RP" (last_known_score empty_state))
                (neb (player_name Scenario.shroud_snapshot)
                     (last_known_name empty_state)))
      as (_ & Enick & Edown & Eup).
    repeat split; assumption || reflexivity.
Qed.

End BotProperties.

(* ===================================================================== *)
(** * Step 1 on its own                                                  *)
(* ===================================================================== *)

Section ParseData.
Import Py Bot BotSpec.

(** C2, as amended. Step 1 reads a document without an exception exactly
    when the document is an object in which the member "global", when
    present, is an object, and in that the member "rank", when present, is
    an object. On such a document it yields the values at the paths
    global.name, global.rank.rankScore, global.rank.rankName,
    global.rank.rankDiv and global.rank.rankImg, with "Unknown", 0,
    "Rookie", 0 and None in place of a missing member. On any other document
    it raises the AttributeError of a value that is no object. *)
Theorem parse_data_reads_paths (data : pyval) :
  (readable data = true ->
   parse_data data
   = Ok {| player_name :=
             or_default (PyStr "Unknown") (at_path ["global"; "name"] data);
           rank_score :=
             or_default (PyInt 0) (at_path ["global"; "rank"; "rankScore"] data);
           rank_name :=
             or_default (PyStr "Rookie")
                        (at_path ["global"; "rank"; "rankName"] data);
           rank_div :=
             or_default (PyInt 0) (at_path ["global"; "rank"; "rankDiv"] data);
           rank_img_url :=
             or_default PyNone (at_path ["global"; "rank"; "rankImg"] data) |})
  /\ (readable data = false ->
      exists v,
        is_dict v = false
        /\ parse_data data
           = Raise (Exn AttributeError
                      ("'" ++ type_name v ++ "' object has no attribute 'get'"))).
Proof.
  unfold readable, parse_data.
  destruct data as [ | b | n | x | s | xs | top ];
    try (split; [ discriminate | intros _; eexists; split; [ | reflexivity ];
                                 reflexivity ]).
  cbn [object_if_present at_path get and_then or_default].
  destruct (assoc "global" top) as [ g | ].
  - destruct g as [ | b | n | x | s | xs | g ];
      try (split; [ discriminate | intros _; eexists; split; [ | reflexivity ];
                                   reflexivity ]).
    cbn [is_dict andb object_if_present at_path get and_then or_default].
    destruct (assoc "rank" g) as [ r | ].
    + destruct r as [ | b | n | x | s | xs | r ];
        try (split; [ discriminate | intros _; eexists; split; [ | reflexivity ];
                                     reflexivity ]).
      split; [ intros _ | discriminate ].
      cbn [get and_then at_path or_default].
      destruct (assoc "name" g), (assoc "rankScore" r), (assoc "rankName" r),
        (assoc "rankDiv" r), (assoc "rankImg" r); reflexivity.
    + split; [ intros _ | discriminate ].
      cbn [get and_then at_path or_default assoc].
      destruct (assoc "name" g); reflexivity.
  - split; [ intros _ | discriminate ]. reflexivity.
Qed.

(** The amended C2 on the empty object: every field takes its default. *)
Lemma parse_data_reads_paths_witness :
  parse_data (PyDict [])
  = Ok {| player_name := PyStr "Unknown";
          rank_score := PyInt 0;
          rank_name := PyStr "Rookie";
          rank_div := PyInt 0;
          rank_img_url := PyNone |}.
Proof. exact (proj1 (parse_data_reads_paths (PyDict [])) eq_refl). Defined.

(** C2 as stated fails: on the document [{"global": null}] step 1 raises,
    so it is not total on the documents a 200 answer may carry. *)
Lemma parse_data_null_global :
  parse_data (PyDict [("global", PyNone)])
  = Raise (Exn AttributeError "'NoneType' object has no attribute 'get'").
Proof. reflexivity. Qed.

End ParseData.

(* ===================================================================== *)
(** * The claims on the scenarios                                        *)
(* ===================================================================== *)

Section OnScenarios.
Import Py Bot BotSpec Scenario.
#[local] Existing Instance Scenario.plain_repr.

Lemma happy_fetches : fetches bot happy shroud_snapshot.
Proof. exists (ok_reply shroud), shroud. repeat split. Qed.

Lemma presence_down_fetches : fetches bot presence_down shroud_snapshot.
Proof. exists (ok_reply shroud), shroud. repeat split. Qed.

(** The amended C1 in the world where every call succeeds but the edit on
    "beta". *)
Lemma first_cycle_of_scenario_witness :
  let first := update_stats_task bot happy empty_state in
  presence_calls (trace_of first) = [master_text]
  /\ nickname_calls (trace_of first)
     = [("alpha", PyStr "Shroud"); ("beta", PyStr "Shroud");
        ("gamma", PyStr "Shroud")]
  /\ avatar_downloads (trace_of first) = [PyStr "http://x/badge.png"]
  /\ avatar_uploads (trace_of first) = ["PNG:GIF89a"].
Proof.
  destruct (first_cycle_of_scenario bot happy (ok_reply shroud)
              eq_refl eq_refl eq_refl) as (_ & _ & Hpresence & Hrest).
  destruct (Hrest eq_refl) as (Hnick & Hdown & Hup & _).
  split; [ exact Hpresence | ].
  split; [ exact Hnick | ].
  split; [ exact Hdown | exact Hup ].
Defined.

(** C1 as stated fails: on a first cycle after a restart the only joined
    server shows the bot as "Shroud" already; the presence update is issued
    and returns, and no nickname update is attempted on that server. *)
Lemma first_cycle_skips_named_server :
  let first := update_stats_task bot already_named empty_state in
  presence_calls (trace_of first) = [master_text]
  /\ List.length (guilds already_named) = 1%nat
  /\ nickname_calls (trace_of first) = [].
Proof. repeat split. Qed.

(** The amended C6: two cycles in the world where presence updates
    succeed. *)
Lemma second_cycle_is_silent_witness :
  let s1 := state_of (update_stats_task bot happy empty_state) in
  let second := update_stats_task bot happy s1 in
  presence_calls (trace_of second) = []
  /\ nickname_calls (trace_of second) = []
  /\ avatar_downloads (trace_of second) = []
  /\ avatar_uploads (trace_of second) = []
  /\ state_of second = s1.
Proof.
  apply (second_cycle_is_silent bot happy happy shroud_snapshot empty_state
           happy_fetches happy_fetches).
  reflexivity.
Defined.

(** C6 as stated fails: the presence call of the first cycle raises, nothing
    is recorded, and the second cycle with the same snapshot issues the
    presence call again. *)
Lemma presence_retried_after_failure :
  let s1 := state_of (update_stats_task bot presence_down empty_state) in
  let second := update_stats_task bot happy s1 in
  s1 = empty_state
  /\ presence_calls (trace_of second) = [master_text]
  /\ List.length (nickname_calls (trace_of second)) = 3%nat.
Proof. repeat split. Qed.

(** The amended C7 on three cycles: the badge is downloaded on a first
    cycle; it is not when only the display name is new; it is not when the
    presence call raises. *)
Lemma avatar_gate_witness :
  avatar_downloads (trace_of (update_stats_task bot happy empty_state))
  = [PyStr "http://x/badge.png"]
  /\ avatar_downloads
       (trace_of (update_stats_task bot happy
                    {| last_known_name := PyStr "Old name";
                       last_known_score := Some master_text |})) = []
  /\ avatar_downloads
       (trace_of (update_stats_task bot presence_down empty_state)) = [].
Proof.
  split; [ | split ].
  - exact (proj1 (proj2 (avatar_gate bot) happy shroud_snapshot empty_state
                    master_text happy_fetches eq_refl)).
  - exact (proj2 (proj2 (avatar_gate bot) happy shroud_snapshot
                    {| last_known_name := PyStr "Old name";
                       last_known_score := Some master_text |}
                    master_text happy_fetches eq_refl) eq_refl).
  - exact (proj1 (proj2 (avatar_gate bot) presence_down shroud_snapshot
                    empty_state master_text presence_down_fetches eq_refl)).
Defined.

(** C7 as stated fails: the snapshot has a badge address and the status text
    differs from the last known one, yet no avatar update runs, because the
    presence call raised. *)
Lemma avatar_skipped_when_presence_raises :
  truthy (rank_img_url shroud_snapshot) = true
  /\ status_text_of shroud_snapshot = Ok master_text
  /\ differs master_text (last_known_score empty_state) = true
  /\ avatar_downloads
       (trace_of (update_stats_task bot presence_down empty_state)) = []
  /\ avatar_uploads
       (trace_of (update_stats_task bot presence_down empty_state)) = [].
Proof. repeat split. Qed.

(** C8 on the answers 429 and 500 of the specification. *)
Lemma non_200_cycle_witness :
  (exists record,
      update_stats_task bot rate_limited empty_state
      = ([GetStats (api_url bot); Log record], empty_state, Ok tt)
      /\ lvl record = WARNING)
  /\ (exists record,
         update_stats_task bot server_error empty_state
         = ([GetStats (api_url bot); Log record], empty_state, Ok tt)
         /\ message record = "[DAAN] API Failed: 500 - server error").
Proof.
  split.
  - destruct (non_200_cycle bot rate_limited
                {| status := 429; body := Ok "Too Many Requests";
                   json := Raise (Exn OtherException "not JSON") |}
                empty_state eq_refl)
      as (record & Erun & E429 & _); [ discriminate | ].
    exists record. split; [ exact Erun | ]. now rewrite (E429 eq_refl).
  - destruct (non_200_cycle bot server_error
                {| status := 500; body := Ok "server error";
                   json := Raise (Exn OtherException "not JSON") |}
                empty_state eq_refl)
      as (record & Erun & _ & Eread & _); [ discriminate | ].
    exists record. split; [ exact Erun | ].
    destruct (Eread ltac:(discriminate) "server error" eq_refl) as (-> & _).
    reflexivity.
Defined.

(** C8 as stated fails: the API answers 500 and reading the body of the
    answer raises; the one record of the cycle is the error of the handler
    of the cycle, and its message does not hold the status. *)
Lemma unread_body_is_not_logged :
  session_get server_error_unread (PyStr (api_url bot))
  = Ok {| status := 500; body := Raise payload_error;
          json := Raise payload_error |}
  /\ logged (trace_of (update_stats_task bot server_error_unread empty_state))
     = [LogRecord ERROR
          "[DAAN] Error in main loop: Response payload is not completed"]
  /\ ~ contains "[DAAN] Error in main loop: Response payload is not completed"
        "500".
Proof.
  split; [ reflexivity | ]. split; [ reflexivity | ].
  intros Hin. apply contains_occurs in Hin. discriminate Hin.
Qed.

(** C9 in the world where "beta" refuses the edit: "gamma", after it, is
    still attempted, and the name is recorded. *)
Lemma forbidden_server_is_skipped_witness :
  nickname_calls
    (trace_of (update_all_nicknames bot happy (PyStr "Shroud") empty_state))
  = [("alpha", PyStr "Shroud"); ("beta", PyStr "Shroud");
     ("gamma", PyStr "Shroud")]
  /\ last_known_name (state_of (update_stats_task bot happy empty_state))
     = PyStr "Shroud".
Proof.
  split.
  - exact (proj2 (proj1 (forbidden_server_is_skipped bot) happy (PyStr "Shroud")
                    [server "alpha" PyNone None] [server "gamma" PyNone None]
                    (server "beta" (PyStr "Apex Bot") (Some missing_permissions))
                    (member_named (PyStr "Apex Bot") (Some missing_permissions))
                    missing_permissions empty_state
                    eq_refl eq_refl eq_refl eq_refl eq_refl)).
  - exact (proj1 (proj2 (forbidden_server_is_skipped bot) happy shroud_snapshot
                    master_text empty_state happy_fetches eq_refl
                    (fun _ => eq_refl) eq_refl)).
Defined.

(** C10 in the world where the platform is down for the presence update,
    with a display name that differs from the last known one. *)
Lemma presence_failure_abandons_cycle_witness :
  neb (player_name shroud_snapshot) (last_known_name empty_state) = true
  /\ update_stats_task bot presence_down empty_state
     = ([GetStats (api_url bot); ChangePresence master_text;
         main_loop_error bot connection_closed], empty_state, Ok tt).
Proof.
  split; [ reflexivity | ].
  exact (proj1 (presence_failure_abandons_cycle bot presence_down
                  shroud_snapshot empty_state master_text connection_closed
                  presence_down_fetches eq_refl eq_refl eq_refl)).
Defined.

End OnScenarios.

(* ===================================================================== *)
(** * More on the configuration loader                                   *)
(* ===================================================================== *)

Section MoreLoaderProperties.
Import Py Loader LoaderSpec MoreSpec.

(** What the loader returns, when it returns. *)
Lemma parse_returns env_vars logs configs :
  parse_player_configs env_vars = (logs, Ok configs) ->
  Forall (delay_parses env_vars) (well_formed env_vars)
  /\ well_formed env_vars <> []
  /\ configs = map (record_of env_vars) (well_formed env_vars)
  /\ skip_warnings logs
     = map (fun item => skip_warning (fst item)) (incomplete env_vars).
Proof.
  intros Erun.
  destruct (Forall_Exists_dec (delay_parses env_vars)
              (delay_parses_dec env_vars) (well_formed env_vars))
    as [ Hparse | Hbad ].
  - destruct (parse_all_parse env_vars Hparse) as (logs' & Ewarn & Erun').
    rewrite Erun in Erun'.
    destruct (well_formed env_vars) as [ | item items ] eqn:Eitems;
      [ discriminate | ].
    injection Erun' as -> ->.
    split; [ exact Hparse | ]. split; [ discriminate | ].
    split; [ reflexivity | exact Ewarn ].
  - destruct (parse_unparsed env_vars Hbad) as (logs' & text & Erun' & _).
    rewrite Erun in Erun'. discriminate.
Qed.

Lemma assoc_in {A : Type} key (items : list (string * A)) v :
  assoc key items = Some v -> In (key, v) items.
Proof.
  induction items as [ | [k x] items IH ]; [ discriminate | ].
  simpl. destruct (String.eqb_spec key k) as [ -> | Hne ].
  - intros [= ->]. now left.
  - intros Efound. right. now apply IH.
Qed.

Lemma upper_char_idempotent c : upper_char (upper_char c) = upper_char c.
Proof. destruct c as [[] [] [] [] [] [] [] []]; reflexivity. Qed.

Lemma upper_idempotent s : upper (upper s) = upper s.
Proof.
  induction s as [ | c s IH ]; [ reflexivity | ].
  simpl. now rewrite upper_char_idempotent, IH.
Qed.

(** X1. Whenever the loader returns, the collection is not empty, and every
    record in it comes from the environment: its token is the value of a
    key that starts with DISCORD_BOT_TOKEN_ and is not the reserved key
    DISCORD_BOT_TOKEN_MAP, its name is derived from that key, and its
    identifier is the value, not empty, of PLAYER_UID_<name>. *)
Theorem records_come_from_environment (env_vars : environ)
    (logs : list log_record) (configs : list PlayerConfig) :
  parse_player_configs env_vars = (logs, Ok configs) ->
  configs <> [] /\ Forall (from_environment env_vars) configs.
Proof.
  intros Erun.
  destruct (parse_returns _ _ _ Erun) as (_ & Hsome & -> & _).
  split.
  - destruct (well_formed env_vars); [ now contradiction Hsome | discriminate ].
  - apply Forall_map, Forall_forall. intros [key value] Hin.
    apply filter_In in Hin. destruct Hin as (Hin & Hcomplete).
    apply filter_In in Hin. destruct Hin as (Hin & Htoken).
    exists key. cbn [record_of name discord_token player_uid fst snd] in *.
    unfold complete, uid_of in *. cbn [fst] in *.
    destruct (assoc ("PLAYER_UID_" ++ player_name_of key) env_vars)
      as [ [ | c uid ] | ]; try discriminate.
    repeat split; try assumption; discriminate.
Qed.

Lemma records_come_from_environment_witness :
  exists logs configs,
    parse_player_configs Scenario.env_two_of_three = (logs, Ok configs)
    /\ configs <> []
    /\ Forall (from_environment Scenario.env_two_of_three) configs.
Proof.
  eexists _, _. split; [ reflexivity | ].
  exact (records_come_from_environment Scenario.env_two_of_three _ _ eq_refl).
Defined.

(** X2. The name of every record the loader returns is in upper case: the
    name is the upper-cased rest of the token key, whatever the case of the
    key in the environment. *)
Theorem record_names_are_upper_case (env_vars : environ)
    (logs : list log_record) (configs : list PlayerConfig) :
  parse_player_configs env_vars = (logs, Ok configs) ->
  Forall (fun config => upper (name config) = name config) configs.
Proof.
  intros Erun.
  destruct (parse_returns _ _ _ Erun) as (_ & _ & -> & _).
  apply Forall_map, Forall_forall. intros item _.
  unfold record_of, player_name_of. cbn [name]. apply upper_idempotent.
Qed.

Lemma record_names_are_upper_case_witness :
  map name
      (map (record_of [("DISCORD_BOT_TOKEN_daan", "t"); ("PLAYER_UID_DAAN", "7")])
           (well_formed [("DISCORD_BOT_TOKEN_daan", "t"); ("PLAYER_UID_DAAN", "7")]))
  = ["DAAN"]
  /\ Forall (fun config => upper (name config) = name config)
            (map (record_of [("DISCORD_BOT_TOKEN_daan", "t"); ("PLAYER_UID_DAAN", "7")])
                 (well_formed [("DISCORD_BOT_TOKEN_daan", "t"); ("PLAYER_UID_DAAN", "7")])).
Proof.
  split; [ reflexivity | ].
  exact (record_names_are_upper_case
           [("DISCORD_BOT_TOKEN_daan", "t"); ("PLAYER_UID_DAAN", "7")]
           _ _ eq_refl).
Defined.

Lemma load_loop_logs env_vars tokens :
  Forall (delay_parses env_vars) (filter (complete env_vars) tokens) ->
  forall configs,
    fst (load_loop env_vars tokens configs) = map (log_of env_vars) tokens.
Proof.
  induction tokens as [ | [key value] rest IH ]; intros Hparse configs;
    [ reflexivity | ].
  simpl filter in Hparse. cbn [map].
  destruct (complete env_vars (key, value)) eqn:Ecomplete.
  - inversion Hparse as [ | item items Hitem Hrest ]; subst.
    rewrite (load_loop_keep _ _ _ _ _ Ecomplete).
    unfold delay_parses in Hitem. cbn [fst] in Hitem.
    destruct (parse_int (delay_text env_vars key)) as [ seconds | ] eqn:Eparse;
      [ | contradiction ].
    rewrite (int_parsed _ _ Eparse). cbv zeta.
    specialize (IH Hrest (configs ++ [record_of env_vars (key, value)])%list).
    destruct (load_loop env_vars rest _) as [logs r]. cbn [fst] in *.
    unfold log_of at 1. rewrite Ecomplete. now rewrite IH.
  - rewrite (load_loop_skip _ _ _ _ _ Ecomplete).
    specialize (IH Hparse configs).
    destruct (load_loop env_vars rest configs) as [logs r]. cbn [fst] in *.
    unfold log_of at 1. rewrite Ecomplete. now rewrite IH.
Qed.

(** X3. Whenever the loader returns, it has logged exactly one record per
    token key, in the order of the keys: the INFO record of the player that
    was loaded, or the WARNING of the key that was skipped, and nothing
    else. *)
Theorem one_log_record_per_token_key (env_vars : environ)
    (logs : list log_record) (configs : list PlayerConfig) :
  parse_player_configs env_vars = (logs, Ok configs) ->
  logs = map (log_of env_vars) (player_tokens env_vars)
  /\ filter (is_level INFO) logs = map loaded_info configs
  /\ filter (is_level FATAL) logs = [].
Proof.
  intros Erun.
  destruct (parse_returns _ _ _ Erun) as (Hparse & Hsome & Econfigs & _).
  assert (Elogs : logs = map (log_of env_vars) (player_tokens env_vars)).
  { pose proof (load_loop_logs env_vars (player_tokens env_vars) Hparse []) as Efst.
    destruct (load_loop env_vars (player_tokens env_vars) []) as [logs' r] eqn:Eloop.
    rewrite (parse_after_loop _ _ _ Eloop) in Erun. cbn [fst] in Efst.
    destruct r as [ [ | config rest ] | e ]; try discriminate.
    injection Erun as <- _. exact Efst. }
  split; [ exact Elogs | ].
  rewrite Elogs, Econfigs. unfold well_formed. clear.
  induction (player_tokens env_vars) as [ | item items [IHinfo IHfatal] ];
    [ now split | ].
  cbn [map filter].
  destruct (complete env_vars item) eqn:Ecomplete.
  - assert (Elog : log_of env_vars item = loaded_info (record_of env_vars item))
      by (unfold log_of; now rewrite Ecomplete).
    rewrite Elog.
    change (is_level INFO (loaded_info (record_of env_vars item))) with true.
    change (is_level FATAL (loaded_info (record_of env_vars item))) with false.
    cbn [map]. now rewrite IHinfo, IHfatal.
  - assert (Elog : log_of env_vars item = skip_warning (fst item))
      by (unfold log_of; now rewrite Ecomplete).
    rewrite Elog.
    change (is_level INFO (skip_warning (fst item))) with false.
    change (is_level FATAL (skip_warning (fst item))) with false.
    now rewrite IHinfo, IHfatal.
Qed.

Lemma one_log_record_per_token_key_witness :
  exists logs configs,
    parse_player_configs Scenario.env_two_of_three = (logs, Ok configs)
    /\ List.length logs = 3%nat
    /\ filter (is_level INFO) logs = map loaded_info configs.
Proof.
  eexists _, _. split; [ reflexivity | ].
  destruct (one_log_record_per_token_key Scenario.env_two_of_three _ _ eq_refl)
    as (Elogs & Einfo & _).
  split; [ reflexivity | exact Einfo ].
Defined.

Lemma assoc_other {A : Type} key k (v : A) before after :
  key <> k ->
  assoc key (before ++ (k, v) :: after) = assoc key (before ++ after).
Proof.
  intros Hne. induction before as [ | [k' x] before IH ]; simpl.
  - destruct (String.eqb_spec key k); [ contradiction | reflexivity ].
  - now rewrite IH.
Qed.

Lemma load_loop_same_reads env_vars env_vars' tokens :
  (forall item key, In item tokens -> reads (fst item) key ->
                    assoc key env_vars' = assoc key env_vars) ->
  forall configs,
    load_loop env_vars' tokens configs = load_loop env_vars tokens configs.
Proof.
  induction tokens as [ | [token_key value] rest IH ]; intros Hsame configs;
    [ reflexivity | ].
  cbn [load_loop]. cbv zeta.
  rewrite (Hsame (token_key, value) ("PLAYER_UID_" ++ player_name_of token_key)
                 (or_introl eq_refl) (or_introl eq_refl)).
  rewrite (Hsame (token_key, value)
                 ("STARTUP_DELAY_" ++ player_name_of token_key)
                 (or_introl eq_refl) (or_intror eq_refl)).
  assert (Hrest : forall item key, In item rest -> reads (fst item) key ->
                                   assoc key env_vars' = assoc key env_vars)
    by (intros item key Hin; apply Hsame; now right).
  destruct (assoc ("PLAYER_UID_" ++ player_name_of token_key) env_vars)
    as [ [ | c uid ] | ]; rewrite ?(IH Hrest); try reflexivity.
  destruct (int _); [ | reflexivity ]. now rewrite (IH Hrest).
Qed.

(** X4. A variable that is no token key, and that no token key of the
    environment reads as its PLAYER_UID_ or STARTUP_DELAY_ key, has no
    influence on the loader: with or without it, wherever it stands, the
    loader logs and returns the same. *)
Theorem unrelated_variable_is_ignored (before after : environ)
    (key value : string) :
  is_token_key key = false ->
  (forall item, In item (player_tokens (before ++ after)%list) ->
                ~ reads (fst item) key) ->
  parse_player_configs (before ++ (key, value) :: after)%list
  = parse_player_configs (before ++ after)%list.
Proof.
  intros Hkey Hunread.
  assert (Etokens : player_tokens (before ++ (key, value) :: after)%list
                    = player_tokens (before ++ after)%list).
  { unfold player_tokens. rewrite !filter_app. cbn [filter fst].
    now rewrite Hkey. }
  unfold parse_player_configs. rewrite Etokens.
  rewrite (load_loop_same_reads (before ++ after)%list
             (before ++ (key, value) :: after)%list); [ reflexivity | ].
  intros item read Hin Hreads. apply assoc_other.
  intros ->. exact (Hunread item Hin Hreads).
Qed.

Lemma unrelated_variable_is_ignored_witness :
  parse_player_configs
    ([("APEX_API_KEY", "key"); ("DISCORD_BOT_TOKEN_DAAN", "token-1")]
     ++ ("PATH", "/usr/bin") :: [("PLAYER_UID_DAAN", "1007")])%list
  = parse_player_configs
      ([("APEX_API_KEY", "key"); ("DISCORD_BOT_TOKEN_DAAN", "token-1")]
       ++ [("PLAYER_UID_DAAN", "1007")])%list.
Proof.
  apply unrelated_variable_is_ignored; [ reflexivity | ].
  intros item [ <- | [] ] [ Eread | Eread ]; discriminate.
Defined.

End MoreLoaderProperties.

(* ===================================================================== *)
(** * More on a bot session                                              *)
(* ===================================================================== *)

Section MoreBotProperties.
Import Py Bot BotSpec MoreSpec.
#[local] Open Scope py_scope.
Context `{Repr}.
Variable self : ApexPlayerBot.

Ltac run :=
  unfold log;
  unfold bind, ret, lift, emit, call, get_state, set_last_known_score,
    set_last_known_name, try_except, get_stats, get_image;
  cbn [fst snd app andb trace_of state_of outcome_of and_then
       last_known_name last_known_score].

Lemma stats_requests_app t u :
  stats_requests (t ++ u) = (stats_requests t ++ stats_requests u)%list.
Proof. apply flat_map_app. Qed.

Lemma logged_app t u : logged (t ++ u) = (logged t ++ logged u)%list.
Proof. apply flat_map_app. Qed.

(** What one server contributes to a pass. *)
Lemma pass_events_one new_nick g :
  pass_events self new_nick [g]
  = match me g with
    | None => [nickname_failure self g no_member]
    | Some m =>
        if neb (nick m) new_nick then
          EditNick (guild_name g) new_nick
          :: match edit m new_nick with
             | None => []
             | Some e =>
                 [if is_forbidden e then missing_permissions_warning self g
                  else nickname_failure self g e]
             end
        else []
    end.
Proof.
  unfold pass_events, for_each, update_nickname_in, me_of. run.
  destruct (me g) as [ m | ]; [ | reflexivity ].
  destruct (neb (nick m) new_nick); run; [ | reflexivity ].
  destruct (edit m new_nick) as [ e | ]; [ | reflexivity ].
  destruct (is_forbidden e); reflexivity.
Qed.

Lemma pass_events_stats new_nick servers :
  stats_requests (pass_events self new_nick servers) = [].
Proof.
  induction servers as [ | g servers IH ]; [ reflexivity | ].
  rewrite pass_events_cons, stats_requests_app, IH, app_nil_r, pass_events_one.
  destruct (me g) as [ m | ]; [ | reflexivity ].
  destruct (neb (nick m) new_nick); [ | reflexivity ].
  destruct (edit m new_nick) as [ e | ]; [ | reflexivity ].
  destruct (is_forbidden e); reflexivity.
Qed.

Lemma pass_events_logged new_nick servers :
  List.length (logged (pass_events self new_nick servers))
  = List.length (filter (refuses new_nick) servers).
Proof.
  induction servers as [ | g servers IH ]; [ reflexivity | ].
  rewrite pass_events_cons, logged_app, length_app, IH, pass_events_one.
  cbn [filter]. unfold refuses at 2.
  destruct (me g) as [ m | ]; [ | reflexivity ].
  destruct (neb (nick m) new_nick); [ | reflexivity ].
  destruct (edit m new_nick) as [ e | ]; [ | reflexivity ].
  destruct (is_forbidden e); reflexivity.
Qed.

Lemma avatar_events_stats w url :
  stats_requests (avatar_events self w url) = [].
Proof.
  unfold avatar_events, update_avatar. run.
  destruct (session_get w url) as [ resp | e ]; [ | reflexivity ].
  destruct (status resp =? 200); [ | reflexivity ].
  destruct (body resp) as [ raw | e ]; [ | reflexivity ].
  destruct (reencode w raw) as [ png | e ]; [ | reflexivity ].
  destruct (user_edit w png); reflexivity.
Qed.

Lemma completed_events_stats w snap text score_changed name_changed :
  stats_requests
    (completed_events self w snap text score_changed name_changed) = [].
Proof.
  unfold completed_events. rewrite !stats_requests_app.
  destruct score_changed, name_changed, (truthy (rank_img_url snap));
    cbn [andb stats_requests flat_map app status_log nickname_log avatar_log];
    fold (stats_requests (pass_events self (player_name snap) (guilds w)));
    fold (stats_requests (avatar_events self w (rank_img_url snap)));
    now rewrite ?pass_events_stats, ?avatar_events_stats.
Qed.

(** The four courses of a cycle. *)
Lemma cycle_cases w s :
  (exists e,
      update_stats_task self w s
      = ([GetStats (api_url self); main_loop_error self e], s, Ok tt))
  \/ (exists record,
         update_stats_task self w s
         = ([GetStats (api_url self); Log record], s, Ok tt))
  \/ (exists snap text e,
         fetches self w snap
         /\ status_text_of snap = Ok text
         /\ update_stats_task self w s
            = ([GetStats (api_url self); ChangePresence text;
                main_loop_error self e], s, Ok tt))
  \/ (exists snap text,
         fetches self w snap
         /\ status_text_of snap = Ok text
         /\ update_stats_task self w s
            = (GetStats (api_url self)
               :: completed_events self w snap text
                    (differs text (last_known_score s))
                    (neb (player_name snap) (last_known_name s)),
               recorded s (differs text (last_known_score s))
                 (neb (player_name snap) (last_known_name s)) text
                 (player_name snap),
               Ok tt)).
Proof.
  destruct (session_get w (PyStr (api_url self))) as [ resp | e ] eqn:Eget.
  2: { left. exists e. unfold update_stats_task, poll. run. now rewrite Eget. }
  destruct (Z.eq_dec (status resp) 200) as [ E200 | N200 ].
  2: { right. left. eexists. exact (cycle_non_200 _ _ _ _ Eget N200). }
  destruct (json resp) as [ data | e ] eqn:Ejson.
  2: { left. exists e. unfold update_stats_task, poll. run.
       rewrite Eget, E200. cbn [Z.eqb Pos.eqb]. now rewrite Ejson. }
  destruct (parse_data data) as [ snap | e ] eqn:Eparse.
  2: { left. exists e. unfold update_stats_task, poll. run.
       rewrite Eget, E200. cbn [Z.eqb Pos.eqb]. now rewrite Ejson, Eparse. }
  assert (Hfetch : fetches self w snap) by (exists resp, data; auto).
  destruct (status_text_of snap) as [ text | e ] eqn:Etext.
  2: { left. exists e. exact (cycle_unformatted _ _ _ _ _ Hfetch Etext). }
  destruct (differs text (last_known_score s)) eqn:Ediff.
  - destruct (change_presence w text) as [ e | ] eqn:Ecall.
    + right. right. left. exists snap, text, e.
      split; [ exact Hfetch | ]. split; [ exact Etext | ].
      exact (cycle_presence_raises _ _ _ _ _ _ Hfetch Etext Ediff Ecall).
    + right. right. right. exists snap, text.
      split; [ exact Hfetch | ]. split; [ exact Etext | ].
      apply (cycle_completes _ _ _ _ _ Hfetch Etext). intros _. exact Ecall.
  - right. right. right. exists snap, text.
    split; [ exact Hfetch | ]. split; [ exact Etext | ].
    apply (cycle_completes _ _ _ _ _ Hfetch Etext).
    rewrite Ediff. discriminate.
Qed.

(** In every course: one stats request, first, and a normal return. *)
Lemma cycle_shape w s :
  exists t s',
    update_stats_task self w s = (GetStats (api_url self) :: t, s', Ok tt)
    /\ stats_requests t = [].
Proof.
  destruct (cycle_cases w s)
    as [ (e & ->) | [ (record & ->) | [ (snap & text & e & _ & _ & ->)
                                      | (snap & text & _ & _ & ->) ] ] ];
    eexists _, _; (split; [ reflexivity | ]);
    try reflexivity.
  apply completed_events_stats.
Qed.

(** Over any ticks the loop returns normally, after one request per tick. *)
Lemma run_loop_requests ticks s :
  outcome_of (run_loop self ticks s) = Ok tt
  /\ stats_requests (trace_of (run_loop self ticks s))
     = repeat (api_url self) (List.length ticks).
Proof.
  revert s. induction ticks as [ | w ticks IH ]; intros s; [ now split | ].
  unfold run_loop in *. cbn [for_each]. unfold bind.
  destruct (cycle_shape w s) as (t & s' & -> & Et).
  destruct (IH s') as (IHok & IHreq).
  destruct (for_each ticks (update_stats_task self) s') as [[t' s''] r].
  cbn [trace_of outcome_of fst snd] in *. split; [ exact IHok | ].
  change (GetStats (api_url self) :: t)%list
    with ([GetStats (api_url self)] ++ t)%list.
  rewrite <- app_assoc, !stats_requests_app, Et, IHreq. reflexivity.
Qed.

(** X5. A cycle never raises, whatever its collaborators do, so the loop
    never stops: over any sequence of ticks it returns normally and has made
    exactly one stats request per tick, each to the address of the
    session. *)
Theorem loop_never_stops (ticks : list world) (s : PollState) :
  outcome_of (run_loop self ticks s) = Ok tt
  /\ stats_requests (trace_of (run_loop self ticks s))
     = repeat (api_url self) (List.length ticks)
  /\ forall w, outcome_of (update_stats_task self w s) = Ok tt.
Proof.
  destruct (run_loop_requests ticks s) as (Eok & Ereq).
  split; [ exact Eok | ]. split; [ exact Ereq | ].
  intros w. now destruct (cycle_shape w s) as (t & s' & -> & _).
Qed.

(** X6. A cycle that gets no snapshot, because the request raised, because
    the body of a 200 answer is not JSON, or because step 1 raised on the
    document, logs that exception as the one error of the cycle, calls
    nothing on the platform and leaves the state as it was. *)
Theorem cycle_without_snapshot_is_logged (w : world) (s : PollState) :
  (forall e,
      session_get w (PyStr (api_url self)) = Raise e ->
      update_stats_task self w s
      = ([GetStats (api_url self); main_loop_error self e], s, Ok tt))
  /\ (forall resp e,
         session_get w (PyStr (api_url self)) = Ok resp ->
         status resp = 200 ->
         json resp = Raise e ->
         update_stats_task self w s
         = ([GetStats (api_url self); main_loop_error self e], s, Ok tt))
  /\ (forall resp data e,
         session_get w (PyStr (api_url self)) = Ok resp ->
         status resp = 200 ->
         json resp = Ok data ->
         parse_data data = Raise e ->
         update_stats_task self w s
         = ([GetStats (api_url self); main_loop_error self e], s, Ok tt)).
Proof.
  split; [ | split ].
  - intros e Eget. unfold update_stats_task, poll. run. now rewrite Eget.
  - intros resp e Eget E200 Ejson. unfold update_stats_task, poll. run.
    rewrite Eget, E200. cbn [Z.eqb Pos.eqb]. now rewrite Ejson.
  - intros resp data e Eget E200 Ejson Eparse.
    unfold update_stats_task, poll. run.
    rewrite Eget, E200. cbn [Z.eqb Pos.eqb]. now rewrite Ejson, Eparse.
Qed.

Lemma status_text_iff_number snap :
  (exists text, status_text_of snap = Ok text)
  <-> is_number (rank_score snap) = true.
Proof.
  unfold status_text_of, format_comma, is_number.
  destruct (rank_score snap); cbn [and_then]; split;
    try reflexivity; try discriminate; try (intros _; now eexists);
    intros (text & Etext); discriminate.
Qed.

(** X7. The status text can be formatted exactly when rankScore is a number:
    an integer, a boolean or a float. With a float the text carries the
    float's own rendering, its integer digits grouped by thousands, and the
    cycle goes on to the updates. With any other rankScore, say a number
    sent as text, the cycle ends in the handler before step 2: one error is
    logged, and neither the presence, nor the nickname (even a new one), nor
    the avatar is updated, and nothing is recorded. *)
Theorem status_text_needs_a_number :
  (forall snap,
      (exists text, status_text_of snap = Ok text)
      <-> is_number (rank_score snap) = true)
  /\ (forall (w : world) (snap : StatsSnapshot) (s : PollState) (x : pyfloat),
         fetches self w snap ->
         rank_score snap = PyFloat x ->
         let text := str (rank_name snap) ++ " " ++ str (rank_div snap) ++ " - "
                     ++ group_leading (repr (PyFloat x)) ++ " RP" in
         status_text_of snap = Ok text
         /\ ((differs text (last_known_score s) = true ->
              change_presence w text = None) ->
             update_stats_task self w s
             = (GetStats (api_url self)
                :: completed_events self w snap text
                     (differs text (last_known_score s))
                     (neb (player_name snap) (last_known_name s)),
                recorded s (differs text (last_known_score s))
                  (neb (player_name snap) (last_known_name s)) text
                  (player_name snap),
                Ok tt)))
  /\ (forall (w : world) (snap : StatsSnapshot) (s : PollState),
         fetches self w snap ->
         is_number (rank_score snap) = false ->
         exists e,
           status_text_of snap = Raise e
           /\ update_stats_task self w s
              = ([GetStats (api_url self); main_loop_error self e], s, Ok tt)).
Proof.
  split; [ exact status_text_iff_number | ]. split.
  - intros w snap s x Hfetch Escore text.
    assert (Etext : status_text_of snap = Ok text)
      by (unfold status_text_of; rewrite Escore; reflexivity).
    split; [ exact Etext | ].
    intros Ecall. exact (cycle_completes _ _ _ _ _ Hfetch Etext Ecall).
  - intros w snap s Hfetch Hnot.
    destruct (status_text_of snap) as [ text | e ] eqn:Etext.
    + assert (Hyes : is_number (rank_score snap) = true)
        by (apply status_text_iff_number; now exists text).
      rewrite Hnot in Hyes. discriminate.
    + exists e. split; [ reflexivity | ].
      exact (cycle_unformatted _ _ _ _ _ Hfetch Etext).
Qed.

(** X8. In a cycle that runs to its end, the three updates are decided
    independently of each other's outcome: the presence call is made exactly
    when the status text differs from the last known one; the nickname pass
    exactly when the display name differs from the last known one, on the
    servers that do not show it yet; the badge is downloaded exactly when
    the snapshot has one and the status text differs. *)
Theorem updates_of_a_completed_cycle (w : world) (snap : StatsSnapshot)
    (s : PollState) (text : string) :
  fetches self w snap ->
  status_text_of snap = Ok text ->
  (differs text (last_known_score s) = true -> change_presence w text = None) ->
  let t := trace_of (update_stats_task self w s) in
  presence_calls t = (if differs text (last_known_score s) then [text] else [])
  /\ nickname_calls t
     = (if neb (player_name snap) (last_known_name s)
        then map (fun g => (guild_name g, player_name snap))
                 (filter (wants_nick (player_name snap)) (guilds w))
        else [])
  /\ avatar_downloads t
     = (if truthy (rank_img_url snap) && differs text (last_known_score s)
        then [rank_img_url snap] else [])
  /\ avatar_uploads t
     = (if truthy (rank_img_url snap) && differs text (last_known_score s)
        then uploaded w (rank_img_url snap) else []).
Proof.
  intros Hfetch Etext Ecall. cbv zeta.
  rewrite (cycle_completes _ _ _ _ _ Hfetch Etext Ecall).
  cbn [trace_of fst].
  exact (completed_events_calls self w snap text _ _).
Qed.

Lemma differs_false text last :
  differs text last = false -> last = Some text.
Proof.
  unfold differs. destruct last as [ known | ]; [ | discriminate ].
  intros E. apply negb_false_iff, String.eqb_eq in E. now subst.
Qed.

(** X9. A cycle either leaves the state of the session as it was, or leaves
    it in agreement with the snapshot it fetched: the last known status text
    is the text of that snapshot and the last known display name equals its
    display name. There is no cycle that records one of the two and not the
    other. *)
Theorem state_is_kept_or_mirrors_snapshot (w : world) (s : PollState) :
  state_of (update_stats_task self w s) = s
  \/ exists snap text,
       fetches self w snap
       /\ status_text_of snap = Ok text
       /\ last_known_score (state_of (update_stats_task self w s)) = Some text
       /\ eqb (player_name snap)
              (last_known_name (state_of (update_stats_task self w s))) = true.
Proof.
  destruct (cycle_cases w s)
    as [ (e & ->) | [ (record & ->) | [ (snap & text & e & _ & _ & ->)
                                      | (snap & text & Hfetch & Etext & ->) ] ] ];
    try (now left).
  right. exists snap, text.
  split; [ exact Hfetch | ]. split; [ exact Etext | ].
  cbn [state_of fst snd recorded last_known_score last_known_name]. split.
  - destruct (differs text (last_known_score s)) eqn:Ediff;
      [ reflexivity | now apply differs_false ].
  - destruct (neb (player_name snap) (last_known_name s)) eqn:Ename.
    + apply py_eqb_refl.
    + unfold neb in Ename. now apply negb_false_iff in Ename.
Qed.

(** X10. An avatar update is contained: it never raises and never touches
    the state of the session; it downloads the address once; it uploads at
    most one picture, and only the re-encoded body of a 200 answer; and it
    logs exactly one record, which is an INFO exactly when a picture was
    uploaded and the platform took it. *)
Theorem avatar_update_is_contained (w : world) (url : pyval) (s : PollState) :
  update_avatar self w url s = (avatar_events self w url, s, Ok tt)
  /\ avatar_downloads (avatar_events self w url) = [url]
  /\ avatar_uploads (avatar_events self w url) = uploaded w url
  /\ (List.length (uploaded w url) <= 1)%nat
  /\ exists record,
       logged (avatar_events self w url) = [record]
       /\ (lvl record = INFO
           <-> exists png, uploaded w url = [png] /\ user_edit w png = None).
Proof.
  split; [ apply update_avatar_run | ].
  destruct (avatar_events_calls self w url) as (Edown & Eup & _ & _).
  split; [ exact Edown | ]. split; [ exact Eup | ].
  unfold avatar_events, update_avatar, uploaded. run.
  destruct (session_get w url) as [ resp | e ].
  2: { split; [ apply Nat.le_0_l | ]. eexists. split; [ reflexivity | ].
       split; [ discriminate | intros (png & Epng & _); discriminate ]. }
  destruct (status resp =? 200).
  2: { split; [ apply Nat.le_0_l | ]. eexists. split; [ reflexivity | ].
       split; [ discriminate | intros (png & Epng & _); discriminate ]. }
  destruct (body resp) as [ raw | e ].
  2: { split; [ apply Nat.le_0_l | ]. eexists. split; [ reflexivity | ].
       split; [ discriminate | intros (png & Epng & _); discriminate ]. }
  cbn [and_then].
  destruct (reencode w raw) as [ png | e ].
  2: { split; [ apply Nat.le_0_l | ]. eexists. split; [ reflexivity | ].
       split; [ discriminate | intros (png & Epng & _); discriminate ]. }
  split; [ apply Nat.le_refl | ].
  destruct (user_edit w png) as [ e | ] eqn:Eedit.
  - eexists. split; [ reflexivity | ].
    split; [ discriminate | ].
    intros (png' & [= <-] & Eok). rewrite Eedit in Eok. discriminate.
  - eexists. split; [ reflexivity | ].
    split; [ intros _; now exists png | reflexivity ].
Qed.

(** X11. A nickname pass never raises and never touches the state of the
    session. After its opening record it attempts exactly one edit on each
    server that does not show the new nickname yet, in the order of the
    servers, and none on the others; and it logs exactly one record for each
    server that has no member for the bot or whose edit raises. *)
Theorem nickname_pass_summary (w : world) (new_nick : pyval) (s : PollState) :
  update_all_nicknames self w new_nick s
  = (nickname_log self new_nick :: pass_events self new_nick (guilds w),
     s, Ok tt)
  /\ nickname_calls (pass_events self new_nick (guilds w))
     = map (fun g => (guild_name g, new_nick))
           (filter (wants_nick new_nick) (guilds w))
  /\ List.length (logged (pass_events self new_nick (guilds w)))
     = List.length (filter (refuses new_nick) (guilds w))
  /\ presence_calls (pass_events self new_nick (guilds w)) = []
  /\ avatar_downloads (pass_events self new_nick (guilds w)) = [].
Proof.
  split; [ apply update_all_nicknames_run | ].
  split; [ apply pass_events_nickname_calls | ].
  split; [ apply pass_events_logged | ].
  split; [ apply pass_events_presence_calls | ].
  exact (proj1 (pass_events_avatar self new_nick (guilds w))).
Qed.

(** X12. In a nickname pass, a server that fails for another reason than
    permissions is logged with an error of its own, which spells the
    exception, and the pass goes on with the servers after it; so is a
    server that has no member for the bot, on which no edit is attempted; a
    server that shows the new nickname already is passed over in silence. *)
Theorem failing_server_is_logged (w : world) (new_nick : pyval)
    (before after : list guild) (g : guild) (s : PollState) :
  guilds w = (before ++ g :: after)%list ->
  (me g = None ->
   update_all_nicknames self w new_nick s
   = ((nickname_log self new_nick :: pass_events self new_nick before)
      ++ [nickname_failure self g no_member]
      ++ pass_events self new_nick after, s, Ok tt)%list)
  /\ (forall m e,
         me g = Some m ->
         neb (nick m) new_nick = true ->
         edit m new_nick = Some e ->
         is_forbidden e = false ->
         update_all_nicknames self w new_nick s
         = ((nickname_log self new_nick :: pass_events self new_nick before)
            ++ [EditNick (guild_name g) new_nick; nickname_failure self g e]
            ++ pass_events self new_nick after, s, Ok tt)%list)
  /\ (forall m,
         me g = Some m ->
         neb (nick m) new_nick = false ->
         update_all_nicknames self w new_nick s
         = ((nickname_log self new_nick :: pass_events self new_nick before)
            ++ pass_events self new_nick after, s, Ok tt)%list).
Proof.
  intros Eguilds.
  rewrite update_all_nicknames_run, Eguilds, pass_events_app,
    (pass_events_cons self new_nick g after), pass_events_one.
  split; [ | split ].
  - intros Eme. now rewrite Eme.
  - intros m e Eme Ewants Eedit Eforbidden.
    now rewrite Eme, Ewants, Eedit, Eforbidden.
  - intros m Eme Ewants. now rewrite Eme, Ewants.
Qed.

End MoreBotProperties.

(* ===================================================================== *)
(** * Around the cycle                                                   *)
(* ===================================================================== *)

Section RunnerProperties.
Import Py Loader LoaderSpec Bot BotSpec MoreSpec Runner.

(** X13. [run_bot] closes the session exactly once, as its last step, on
    every path: whether [start] returns or raises. An exception of [start]
    is logged once and never leaves [run_bot], which raises exactly when
    [close] does. *)
Theorem run_bot_always_closes (config : PlayerConfig) (bot : session) :
  closes (fst (run_bot config bot)) = 1%nat
  /\ List.last (fst (run_bot config bot)) (Start "") = Close
  /\ List.hd Close (fst (run_bot config bot)) = Start (discord_token config)
  /\ (snd (run_bot config bot) = Ok tt <-> close bot = None)
  /\ List.length
       (filter (fun e => match e with Crashed _ => true | _ => false end)
               (fst (run_bot config bot)))
     = (if returns (start bot (discord_token config)) then 0 else 1)%nat.
Proof.
  unfold run_bot, closes. cbn [fst snd].
  destruct (start bot (discord_token config)) as [ e | ];
    (repeat split; try reflexivity);
    destruct (close bot); try reflexivity; try discriminate.
Qed.

Lemma filter_session_logged logs :
  filter is_session_event (map Logged logs) = [].
Proof. induction logs as [ | r logs IH ]; [ reflexivity | exact IH ]. Qed.

Lemma filter_session_run_bot configs :
  filter is_session_event (map RunBot configs) = map RunBot configs.
Proof.
  induction configs as [ | c configs IH ]; [ reflexivity | ].
  cbn [map filter is_session_event]. now rewrite IH.
Qed.

Lemma main_of_parse env_vars logs r :
  parse_player_configs env_vars = (logs, r) ->
  main env_vars
  = match r with
    | Raise e => (map Logged logs, Raise e)
    | Ok player_configs =>
        ((map Logged logs ++ [OpenSession] ++ map RunBot player_configs
            ++ [CloseSession])%list, Ok tt)
    end.
Proof. intros E. unfold main. rewrite E. now destruct r. Qed.

(** X14. The process ends with status 0 exactly when the key of the stats
    API is set, at least one token key has its identifier, the startup delay
    of each such key is an integer, and no bot raises out of [run_bot];
    otherwise with status 1. It opens the HTTP session and starts bots
    exactly when the first three hold: one bot per token key with its
    identifier, in order, between the opening and the closing of the
    session. Without the API key it does not even read the player
    configuration. *)
Theorem script_exit_status (env_vars : environ) (gathered : result unit) :
  (snd (script env_vars gathered) = 0
   <-> has_api_key env_vars = true
       /\ well_formed env_vars <> []
       /\ Forall (delay_parses env_vars) (well_formed env_vars)
       /\ gathered = Ok tt)
  /\ (snd (script env_vars gathered) = 0 \/ snd (script env_vars gathered) = 1)
  /\ (has_api_key env_vars = true ->
      well_formed env_vars <> [] ->
      Forall (delay_parses env_vars) (well_formed env_vars) ->
      filter is_session_event (fst (script env_vars gathered))
      = (OpenSession
         :: map RunBot (map (record_of env_vars) (well_formed env_vars))
         ++ [CloseSession])%list)
  /\ (~ (has_api_key env_vars = true
         /\ well_formed env_vars <> []
         /\ Forall (delay_parses env_vars) (well_formed env_vars)) ->
      filter is_session_event (fst (script env_vars gathered)) = [])
  /\ (has_api_key env_vars = false ->
      fst (script env_vars gathered)
      = [Logged (LogRecord FATAL "Missing APEX_API_KEY in .env")]).
Proof.
  unfold script, has_api_key. cbv zeta.
  destruct (assoc "APEX_API_KEY" env_vars) as [ [ | c key ] | ];
    try (cbn [fst snd]; repeat split; try discriminate; auto;
         intros (Hkey & _); discriminate).
  destruct (Forall_Exists_dec (delay_parses env_vars)
              (delay_parses_dec env_vars) (well_formed env_vars))
    as [ Hparse | Hbad ].
  - destruct (parse_all_parse env_vars Hparse) as (logs & _ & Erun).
    destruct (well_formed env_vars) as [ | item items ] eqn:Eitems.
    + rewrite (main_of_parse _ _ _ Erun). cbn [fst snd].
      split; [ split; [ discriminate | intros (_ & Hsome & _);
                                       now contradiction Hsome ] | ].
      split; [ now right | ].
      split; [ intros _ Hsome; now contradiction Hsome | ].
      split; [ | discriminate ]. intros _.
      rewrite filter_app, filter_session_logged. reflexivity.
    + rewrite (main_of_parse _ _ _ Erun).
      assert (Esession :
                forall extra,
                  filter is_session_event extra = [] ->
                  filter is_session_event
                    ((map Logged logs ++ [OpenSession]
                      ++ map RunBot (map (record_of env_vars) (item :: items))
                      ++ [CloseSession]) ++ extra)%list
                  = (OpenSession
                     :: map RunBot (map (record_of env_vars) (item :: items))
                     ++ [CloseSession])%list).
      { intros extra Eextra.
        rewrite !filter_app, filter_session_logged, filter_session_run_bot,
          Eextra.
        cbn [filter is_session_event app]. now rewrite app_nil_r. }
      destruct gathered as [ [] | e ]; cbn [fst snd].
      * split; [ split; [ intros _; repeat split;
                                    [ discriminate | exact Hparse ]
                        | reflexivity ] | ].
        split; [ now left | ].
        split; [ intros _ _ _;
                 rewrite <- (Esession [] eq_refl); now rewrite app_nil_r | ].
        split; [ | discriminate ].
        intros Hnot. exfalso. apply Hnot.
        repeat split; [ discriminate | exact Hparse ].
      * split; [ split; [ discriminate
                        | intros (_ & _ & _ & Egathered); discriminate ] | ].
        split; [ now right | ].
        split; [ intros _ _ _; now apply Esession | ].
        split; [ | discriminate ].
        intros Hnot. exfalso. apply Hnot.
        repeat split; [ discriminate | exact Hparse ].
  - destruct (parse_unparsed env_vars Hbad) as (logs & text & Erun & _).
    rewrite (main_of_parse _ _ _ Erun). cbn [fst snd].
    assert (Hno : ~ Forall (delay_parses env_vars) (well_formed env_vars)).
    { intros Hparse. apply Exists_exists in Hbad.
      destruct Hbad as (item & Hin & Hitem).
      apply Hitem. exact (proj1 (Forall_forall _ _) Hparse item Hin). }
    split; [ split; [ discriminate
                    | intros (_ & _ & Hparse & _); now contradiction Hno ] | ].
    split; [ now right | ].
    split; [ intros _ _ Hparse; now contradiction Hno | ].
    split; [ | discriminate ]. intros _.
    rewrite filter_app, filter_session_logged. reflexivity.
Qed.

End RunnerProperties.

Section TaskProperties.
Import Py Loader Bot BotSpec MoreSpec Runner.
Context `{Repr}.

Lemma sleeps_in_cycle cycles : sleeps (map InCycle cycles) = [].
Proof. induction cycles as [ | e cycles IH ]; [ reflexivity | exact IH ]. Qed.

(** X15. The task of a session first waits until the session is ready, then
    sleeps once for [startup_delay] seconds when that is positive, and not
    at all when it is zero or negative; only after that does it make its
    stats requests, one per tick. *)
Theorem task_sleeps_before_polling (self : ApexPlayerBot) (ticks : list world) :
  let startup_delay := startup_delay (config self) in
  List.hd (Sleep 0) (update_stats_task_start self ticks) = WaitUntilReady
  /\ sleeps (update_stats_task_start self ticks)
     = (if 0 <? startup_delay then [startup_delay] else [])
  /\ exists cycles,
       update_stats_task_start self ticks
       = (before_update_stats_task self ++ map InCycle cycles)%list
       /\ sleeps (before_update_stats_task self)
          = sleeps (update_stats_task_start self ticks)
       /\ stats_requests cycles = repeat (api_url self) (List.length ticks).
Proof.
  cbv zeta.
  assert (Esleeps : sleeps (update_stats_task_start self ticks)
                    = sleeps (before_update_stats_task self)).
  { unfold update_stats_task_start, sleeps at 1.
    rewrite flat_map_app. fold (sleeps (before_update_stats_task self)).
    fold (sleeps (map InCycle
                    (fst (fst (run_loop self ticks empty_state))))).
    now rewrite sleeps_in_cycle, app_nil_r. }
  split; [ reflexivity | ]. split.
  - rewrite Esleeps. unfold before_update_stats_task.
    now destruct (0 <? startup_delay (config self)).
  - eexists. split; [ reflexivity | ]. split; [ now rewrite Esleeps | ].
    exact (proj2 (run_loop_requests self ticks empty_state)).
Qed.

End TaskProperties.

(* ===================================================================== *)
(** * The status text                                                    *)
(* ===================================================================== *)

Section StatusText.
Import Py Bot BotSpec MoreSpec.
Context `{Repr}.

Lemma group3_step a b c d rest :
  group3 (a :: b :: c :: d :: rest)
  = a :: b :: c :: ","%char :: group3 (d :: rest).
Proof. reflexivity. Qed.

Lemma group3_by_length (P : list ascii -> Prop) :
  (forall l, (List.length l <= 3)%nat -> P l) ->
  (forall a b c d rest, P (d :: rest) -> P (a :: b :: c :: d :: rest)) ->
  forall l, P l.
Proof.
  intros Hshort Hlong l.
  assert (Hall : forall n l', (List.length l' <= n)%nat -> P l').
  { induction n as [ | n IH ]; intros l' Hlen.
    - apply Hshort. lia.
    - destruct l' as [ | a [ | b [ | c [ | d rest ] ] ] ];
        try (apply Hshort; simpl; lia).
      apply Hlong, IH. simpl in *. lia. }
  exact (Hall (List.length l) l (Nat.le_refl _)).
Qed.

Lemma group3_short l : (List.length l <= 3)%nat -> group3 l = l.
Proof.
  destruct l as [ | a [ | b [ | c [ | d rest ] ] ] ]; try reflexivity.
  simpl. lia.
Qed.

(** The grouping only adds commas. *)
Lemma group3_without_commas l :
  filter (fun c => negb (is_comma c)) (group3 l)
  = filter (fun c => negb (is_comma c)) l.
Proof.
  induction l as [ l Hlen | a b c d rest IH ] using group3_by_length.
  - now rewrite group3_short.
  - rewrite group3_step. cbn [filter] in *.
    change (is_comma ","%char) with true. cbn [negb].
    now rewrite IH.
Qed.

Lemma group3_commas l :
  filter is_comma l = [] ->
  List.length (filter is_comma (group3 l)) = ((List.length l - 1) / 3)%nat.
Proof.
  induction l as [ l Hlen | a b c d rest IH ] using group3_by_length;
    intros Hnone.
  - rewrite group3_short, Hnone by exact Hlen.
    symmetry. apply Nat.div_small. lia.
  - assert (Hrest : filter is_comma (d :: rest) = []
                    /\ is_comma a = false /\ is_comma b = false
                    /\ is_comma c = false).
    { cbn [filter] in Hnone.
      destruct (is_comma a); [ discriminate | ].
      destruct (is_comma b); [ discriminate | ].
      destruct (is_comma c); [ discriminate | ].
      cbn [filter]. now repeat split. }
    destruct Hrest as (Hrest & Ea & Eb & Ec).
    rewrite group3_step.
    change (filter is_comma (a :: b :: c :: ","%char :: group3 (d :: rest)))
      with (if is_comma a then a :: filter is_comma (b :: c :: ","%char :: group3 (d :: rest))
            else filter is_comma (b :: c :: ","%char :: group3 (d :: rest))).
    rewrite Ea.
    change (filter is_comma (b :: c :: ","%char :: group3 (d :: rest)))
      with (if is_comma b then b :: filter is_comma (c :: ","%char :: group3 (d :: rest))
            else filter is_comma (c :: ","%char :: group3 (d :: rest))).
    rewrite Eb.
    change (filter is_comma (c :: ","%char :: group3 (d :: rest)))
      with (if is_comma c then c :: ","%char :: filter is_comma (group3 (d :: rest))
            else ","%char :: filter is_comma (group3 (d :: rest))).
    rewrite Ec. cbn [List.length]. rewrite (IH Hrest). cbn [List.length].
    replace (S (S (S (S (List.length rest)))) - 1)%nat
      with (S (List.length rest) - 1 + 1 * 3)%nat by lia.
    rewrite Nat.div_add by discriminate. lia.
Qed.

Lemma uint_digits d :
  filter is_comma (list_ascii_of_string (NilZero.string_of_uint d)) = [].
Proof.
  assert (Hempty : forall u,
             filter is_comma (list_ascii_of_string (NilEmpty.string_of_uint u))
             = []).
  { induction u; simpl; auto. }
  destruct d; try apply Hempty. reflexivity.
Qed.

Lemma str_of_abs n :
  exists d,
    str_of_Z (Z.abs n) = NilZero.string_of_uint d
    /\ str_of_Z n
       = (if n <? 0 then "-" ++ NilZero.string_of_uint d
          else NilZero.string_of_uint d).
Proof. destruct n; eexists; split; reflexivity. Qed.

Lemma filter_none_all {A : Type} (p : A -> bool) l :
  filter p l = [] -> filter (fun x => negb (p x)) l = l.
Proof.
  induction l as [ | x l IH ]; [ reflexivity | ].
  cbn [filter]. destruct (p x); [ discriminate | ].
  intros E. cbn [negb]. now rewrite IH.
Qed.

(** X16. For an integer rankScore the status text is the rank name, the
    division, a dash, the score and "RP", where the score is written with
    commas that only group its decimal digits: taking the commas out gives
    the decimal score back, sign included, and there is one comma for every
    three digits after the first. *)
Theorem score_is_grouped_by_thousands (n : Z) :
  without_commas (thousands n) = str_of_Z n
  /\ commas (thousands n)
     = ((String.length (str_of_Z (Z.abs n)) - 1) / 3)%nat
  /\ forall snap,
       rank_score snap = PyInt n ->
       status_text_of snap
       = Ok (str (rank_name snap) ++ " " ++ str (rank_div snap) ++ " - "
             ++ thousands n ++ " RP").
Proof.
  destruct (str_of_abs n) as (d & Eabs & Estr).
  pose proof (uint_digits d) as Hdigits.
  assert (Eplain :
            filter (fun c => negb (is_comma c))
                   (rev (group3 (rev (list_ascii_of_string
                                        (NilZero.string_of_uint d)))))
            = list_ascii_of_string (NilZero.string_of_uint d)).
  { rewrite filter_rev, group3_without_commas, <- filter_rev, rev_involutive.
    now apply filter_none_all. }
  assert (Ecount :
            List.length
              (filter is_comma
                 (rev (group3 (rev (list_ascii_of_string
                                      (NilZero.string_of_uint d))))))
            = ((String.length (NilZero.string_of_uint d) - 1) / 3)%nat).
  { rewrite filter_rev, length_rev, group3_commas.
    - rewrite length_rev. f_equal. f_equal.
      clear. induction (NilZero.string_of_uint d) as [ | c s IH ];
        [ reflexivity | simpl; now rewrite IH ].
    - rewrite filter_rev, Hdigits. reflexivity. }
  split; [ | split ].
  - unfold without_commas, thousands. cbv zeta. rewrite Eabs, Estr.
    destruct (n <? 0).
    + cbn [append list_ascii_of_string filter].
      change (is_comma "-"%char) with false. cbn [negb].
      rewrite list_ascii_of_string_of_list_ascii, Eplain.
      cbn [string_of_list_ascii]. now rewrite string_of_list_ascii_of_string.
    + rewrite list_ascii_of_string_of_list_ascii, Eplain.
      apply string_of_list_ascii_of_string.
  - unfold commas, thousands. cbv zeta. rewrite Eabs.
    destruct (n <? 0).
    + cbn [append list_ascii_of_string filter].
      change (is_comma "-"%char) with false.
      now rewrite list_ascii_of_string_of_list_ascii, Ecount.
    + now rewrite list_ascii_of_string_of_list_ascii, Ecount.
  - intros snap Escore. unfold status_text_of. now rewrite Escore.
Qed.

End StatusText.

(* ===================================================================== *)
(** * The further properties on the scenarios                            *)
(* ===================================================================== *)

Section MoreOnScenarios.
Import Py Bot BotSpec MoreSpec Scenario MoreScenarios.
#[local] Existing Instance Scenario.plain_repr.

(** X6 on a request that times out and on an answer that is not JSON. *)
Lemma cycle_without_snapshot_is_logged_witness :
  update_stats_task bot offline empty_state
  = ([GetStats (api_url bot); main_loop_error bot timeout_error],
     empty_state, Ok tt)
  /\ presence_calls (trace_of (update_stats_task bot html_reply empty_state))
     = []
  /\ state_of (update_stats_task bot html_reply empty_state) = empty_state.
Proof.
  split.
  - exact (proj1 (cycle_without_snapshot_is_logged bot offline empty_state)
             timeout_error eq_refl).
  - pose proof (proj1 (proj2 (cycle_without_snapshot_is_logged bot html_reply
                                empty_state)) _ _ eq_refl eq_refl eq_refl)
      as Erun.
    rewrite Erun. split; reflexivity.
Defined.

(** X7 on a document whose rankScore is a number sent as text: the new
    display name is not applied either; and on one whose rankScore is the
    float 15000.5: the presence shows it. *)
Lemma status_text_needs_a_number_witness :
  (exists snap e,
      parse_data score_as_text = Ok snap
      /\ neb (player_name snap) (last_known_name empty_state) = true
      /\ update_stats_task bot
           (session (ok_reply score_as_text) None three_servers) empty_state
         = ([GetStats (api_url bot); main_loop_error bot e], empty_state,
            Ok tt))
  /\ parse_data fractional = Ok fractional_snapshot
  /\ status_text_of (H := decimal_repr) fractional_snapshot
     = Ok "Master 1 - 15,000.5 RP"
  /\ presence_calls
       (trace_of (update_stats_task (H := decimal_repr) bot
                    (session (ok_reply fractional) None three_servers)
                    empty_state))
     = ["Master 1 - 15,000.5 RP"].
Proof.
  split; [ | split; [ reflexivity | ] ].
  - destruct (proj2 (proj2 (status_text_needs_a_number bot))
                (session (ok_reply score_as_text) None three_servers)
                {| player_name := PyStr "Shroud";
                   rank_score := PyStr "15000";
                   rank_name := PyStr "Master";
                   rank_div := PyInt 1;
                   rank_img_url := PyNone |}
                empty_state)
      as (e & _ & Erun).
    + exists (ok_reply score_as_text), score_as_text. repeat split.
    + reflexivity.
    + eexists _, e. split; [ reflexivity | ].
      split; [ reflexivity | exact Erun ].
  - destruct (proj1 (proj2 (status_text_needs_a_number (H := decimal_repr) bot))
                (session (ok_reply fractional) None three_servers)
                fractional_snapshot empty_state (Finite false 30001 (-1)))
      as (Etext & Erun).
    + exists (ok_reply fractional), fractional. repeat split.
    + reflexivity.
    + split; [ exact Etext | ].
      rewrite (Erun (fun _ => eq_refl)). reflexivity.
Defined.

(** X8 on a cycle where only the score is new, and on one where only the
    display name is. *)
Lemma updates_of_a_completed_cycle_witness :
  (let t := trace_of (update_stats_task bot happy
                        {| last_known_name := PyStr "Shroud";
                           last_known_score := Some "Master 1 - 14,900 RP" |}) in
   presence_calls t = [master_text]
   /\ nickname_calls t = []
   /\ avatar_downloads t = [PyStr "http://x/badge.png"])
  /\ (let t := trace_of (update_stats_task bot happy
                           {| last_known_name := PyStr "Old name";
                              last_known_score := Some master_text |}) in
      presence_calls t = []
      /\ List.length (nickname_calls t) = 3%nat
      /\ avatar_downloads t = []).
Proof.
  split.
  - destruct (updates_of_a_completed_cycle bot happy shroud_snapshot
                {| last_known_name := PyStr "Shroud";
                   last_known_score := Some "Master 1 - 14,900 RP" |}
                master_text happy_fetches eq_refl (fun _ => eq_refl))
      as (Epresence & Enick & Edown & _).
    split; [ exact Epresence | ]. split; [ exact Enick | exact Edown ].
  - destruct (updates_of_a_completed_cycle bot happy shroud_snapshot
                {| last_known_name := PyStr "Old name";
                   last_known_score := Some master_text |}
                master_text happy_fetches eq_refl (fun _ => eq_refl))
      as (Epresence & Enick & Edown & _).
    split; [ exact Epresence | ].
    split; [ now rewrite Enick | exact Edown ].
Defined.

(** X12 on four servers: one without a member for the bot, one whose edit
    fails for another reason than permissions, one that shows the nickname
    already. *)
Lemma failing_server_is_logged_witness :
  nickname_calls
    (trace_of (update_all_nicknames bot mixed (PyStr "Shroud") empty_state))
  = [("alpha", PyStr "Shroud"); ("delta", PyStr "Shroud")]
  /\ List.length
       (logged (trace_of (update_all_nicknames bot mixed (PyStr "Shroud")
                            empty_state))) = 3%nat.
Proof.
  pose proof (proj1 (proj2 (failing_server_is_logged bot mixed (PyStr "Shroud")
                              [server "alpha" PyNone None;
                               {| guild_name := "void"; me := None |}]
                              [server "omega" (PyStr "Shroud") None]
                              (server "delta" PyNone (Some rate_limited_edit))
                              empty_state eq_refl))
                (member_named PyNone (Some rate_limited_edit)) rate_limited_edit
                eq_refl eq_refl eq_refl eq_refl) as Erun.
  rewrite Erun. split; reflexivity.
Defined.

(** X14 on three environments: a complete one, one without the API key, one
    with a delay that is no integer. *)
Lemma script_exit_status_witness :
  snd (Runner.script env_two_of_three (Ok tt)) = 0
  /\ Runner.script [("DISCORD_BOT_TOKEN_DAAN", "token-1"); ("PLAYER_UID_DAAN", "1007")]
       (Ok tt)
     = ([Loader.Logged (LogRecord FATAL "Missing APEX_API_KEY in .env")], 1)
  /\ snd (Runner.script env_delay_soon (Ok tt)) = 1.
Proof.
  split; [ | split ].
  - apply (proj2 (proj1 (script_exit_status env_two_of_three (Ok tt)))).
    split; [ reflexivity | ]. split; [ discriminate | ].
    split; [ repeat constructor; discriminate | reflexivity ].
  - reflexivity.
  - reflexivity.
Defined.

End MoreOnScenarios.

(* ===================================================================== *)
(** * The order of the calls, and the address of the requests            *)
(* ===================================================================== *)

Section CycleOrder.
Import Py Bot BotSpec MoreSpec.
Context `{Repr}.
Variable self : ApexPlayerBot.

(** X17. In every cycle the calls come in the order of the steps: after the
    stats request, what concerns the presence comes before every nickname
    edit, and every nickname edit before the download and the upload of the
    badge. *)
Theorem calls_follow_the_steps (w : world) (s : PollState) :
  exists step2 step3 step4,
    trace_of (update_stats_task self w s)
    = (GetStats (api_url self) :: step2 ++ step3 ++ step4)%list
    /\ (nickname_calls step2 = [] /\ avatar_downloads step2 = []
        /\ avatar_uploads step2 = [])
    /\ (presence_calls step3 = [] /\ avatar_downloads step3 = []
        /\ avatar_uploads step3 = [])
    /\ (presence_calls step4 = [] /\ nickname_calls step4 = []).
Proof.
  destruct (cycle_cases self w s)
    as [ (e & ->) | [ (record & ->) | [ (snap & text & e & _ & _ & ->)
                                      | (snap & text & _ & _ & ->) ] ] ].
  - exists [main_loop_error self e], [], []. now repeat split.
  - exists [Log record], [], []. now repeat split.
  - exists [ChangePresence text; main_loop_error self e], [], [].
    now repeat split.
  - cbn [trace_of fst]. unfold completed_events.
    eexists _, _, _. split; [ reflexivity | ].
    destruct (pass_events_avatar self (player_name snap) (guilds w))
      as (Pdown & Pup).
    pose proof (pass_events_presence_calls self (player_name snap) (guilds w))
      as Ppres.
    destruct (avatar_events_calls self w (rank_img_url snap))
      as (_ & _ & Apres & Anick).
    split; [ | split ].
    + destruct (differs text (last_known_score s)); now repeat split.
    + destruct (neb (player_name snap) (last_known_name s));
        [ | now repeat split ].
      cbn [presence_calls avatar_downloads avatar_uploads flat_map
           nickname_log app].
      fold (presence_calls (pass_events self (player_name snap) (guilds w))).
      fold (avatar_downloads (pass_events self (player_name snap) (guilds w))).
      fold (avatar_uploads (pass_events self (player_name snap) (guilds w))).
      now rewrite Pdown, Pup, Ppres.
    + destruct (truthy (rank_img_url snap) && differs text (last_known_score s));
        [ | now split ].
      cbn [presence_calls nickname_calls flat_map avatar_log app].
      fold (presence_calls (avatar_events self w (rank_img_url snap))).
      fold (nickname_calls (avatar_events self w (rank_img_url snap))).
      now rewrite Apres, Anick.
Qed.

End CycleOrder.

Section Address.
Import Py Loader Bot.

Lemma append_length (a b : string) :
  String.length (a ++ b) = (String.length a + String.length b)%nat.
Proof. induction a as [ | c a IH ]; simpl; [ reflexivity | now rewrite IH ]. Qed.

Lemma append_cancel_l (a x y : string) : a ++ x = a ++ y -> x = y.
Proof.
  induction a as [ | c a IH ]; simpl; [ auto | ].
  intros [= E]. now apply IH.
Qed.

Lemma append_cancel_r (t x y : string) : x ++ t = y ++ t -> x = y.
Proof.
  revert y. induction x as [ | c x IH ]; intros [ | d y ] E.
  - reflexivity.
  - apply (f_equal String.length) in E. simpl in E.
    rewrite append_length in E. lia.
  - apply (f_equal String.length) in E. simpl in E.
    rewrite append_length in E. lia.
  - simpl in E. injection E as -> E. f_equal. now apply IH.
Qed.

(** X18. With one API key, the address a session polls determines the
    player: two configurations whose sessions request the same address have
    the same player identifier. *)
Theorem api_url_determines_player (APEX_API_KEY : string)
    (config config' : PlayerConfig) :
  api_url (init APEX_API_KEY config) = api_url (init APEX_API_KEY config') ->
  player_uid config = player_uid config'.
Proof.
  unfold init. cbn [api_url]. intros E.
  apply append_cancel_l, append_cancel_l, append_cancel_l in E.
  exact (append_cancel_r _ _ _ E).
Qed.

Lemma api_url_determines_player_witness :
  api_url (init "key" Scenario.daan)
  = "https://api.mozambiquehe.re/bridge?auth=key&player=1007&platform=PC"
  /\ player_uid Scenario.daan
     = player_uid {| name := "TWIN"; discord_token := "token-9";
                     player_uid := "1007"; startup_delay := 5 |}.
Proof.
  split; [ reflexivity | ].
  exact (api_url_determines_player "key" Scenario.daan
           {| name := "TWIN"; discord_token := "token-9";
              player_uid := "1007"; startup_delay := 5 |} eq_refl).
Defined.

End Address.
